(** * ValoHub backend: wishlist store and subscription index

    A shallow embedding of the two request-handler files of the repository,
    [src/server.js] (module [Server]) and the second server file
    [src/unnamed/part_000] (module [Part000]), together with the properties
    the specification states about them.

    Modelling conventions.
    - JavaScript strings are [string]; a request field that may be missing is
      an [option string] ([None] is [undefined]).  Request fields are taken to
      be strings when present.
    - [Map] and [Set] keep insertion order, which [Array.from] and [forEach]
      expose, so they are association lists and duplicate-free lists with the
      operations of the JavaScript objects.  Mutating an object that is stored
      in a [Map] is an update of the map at that key, in place.
    - [new Date().toISOString()] is the [now] argument of a handler; the
      value of [uuidv4()] is the [uuid] argument of registration.
    - The worker routes are modelled past the API-key check. *)

From Stdlib Require Import String Ascii List Bool Arith Lia.
Import ListNotations.
Open Scope string_scope.
Open Scope list_scope.

(** ** JavaScript values used by the handlers *)

Module Js.

Set Implicit Arguments.

(** Equality of possibly-undefined strings ([===]). *)
Definition oeqb (a b : option string) : bool :=
  match a, b with
  | Some x, Some y => String.eqb x y
  | None, None => true
  | _, _ => false
  end.

Lemma oeqb_spec a b : reflect (a = b) (oeqb a b).
Proof.
  destruct a as [x|], b as [y|]; simpl; try (constructor; congruence).
  destruct (String.eqb_spec x y); constructor; congruence.
Qed.

Lemma oeqb_refl a : oeqb a a = true.
Proof. destruct (oeqb_spec a a); congruence. Qed.

Lemma oeqb_eq a b : oeqb a b = true <-> a = b.
Proof. destruct (oeqb_spec a b); split; congruence. Qed.

Lemma oeqb_neq a b : oeqb a b = false <-> a <> b.
Proof. destruct (oeqb_spec a b); split; congruence. Qed.

(** [`${v}`]: interpolation of a value into a template string. *)
Definition str (v : option string) : string :=
  match v with Some s => s | None => "undefined" end.

(** [v || d] on a possibly-undefined string: the empty string is falsy. *)
Definition orElse (v : option string) (d : string) : string :=
  match v with
  | Some s => if String.eqb s "" then d else s
  | None => d
  end.

(** [!v] *)
Definition falsy (v : option string) : bool :=
  match v with
  | Some s => String.eqb s ""
  | None => true
  end.

(** Destructuring default [{ f = d }]: only [undefined] takes the default. *)
Definition default (v : option string) (d : string) : string :=
  match v with Some s => s | None => d end.

(** *** Sets of strings, in insertion order *)

Definition set := list string.

Definition shas (x : string) (s : set) : bool := existsb (String.eqb x) s.

Definition sadd (x : string) (s : set) : set :=
  if shas x s then s else s ++ [x].

Definition sdelete (x : string) (s : set) : set :=
  filter (fun y => negb (String.eqb x y)) s.

(** *** Maps, in insertion order *)

Section Maps.
Variables (K V : Type) (keqb : K -> K -> bool).
Hypothesis keqb_spec : forall a b, reflect (a = b) (keqb a b).

Definition map := list (K * V).

Fixpoint mget (k : K) (m : map) : option V :=
  match m with
  | [] => None
  | (k', v) :: r => if keqb k k' then Some v else mget k r
  end.

Definition mhas (k : K) (m : map) : bool :=
  match mget k m with Some _ => true | None => false end.

Fixpoint mset (k : K) (v : V) (m : map) : map :=
  match m with
  | [] => [(k, v)]
  | (k', v') :: r => if keqb k k' then (k, v) :: r else (k', v') :: mset k v r
  end.

Definition mdelete (k : K) (m : map) : map :=
  filter (fun kv => negb (keqb k (fst kv))) m.

Lemma mget_mset_same k v m : mget k (mset k v m) = Some v.
Proof.
  induction m as [|[k' v'] r IH]; simpl.
  - destruct (keqb_spec k k); congruence.
  - destruct (keqb_spec k k') as [E|N]; simpl.
    + destruct (keqb_spec k k); congruence.
    + destruct (keqb_spec k k'); congruence.
Qed.

Lemma mget_mset_other k k' v m : k' <> k -> mget k' (mset k v m) = mget k' m.
Proof.
  intros N. induction m as [|[k0 v0] r IH]; simpl.
  - destruct (keqb_spec k' k); congruence.
  - destruct (keqb_spec k k0) as [E|N0]; simpl.
    + subst k0. destruct (keqb_spec k' k); congruence.
    + destruct (keqb_spec k' k0); congruence.
Qed.

Lemma mget_mdelete_same k m : mget k (mdelete k m) = None.
Proof.
  induction m as [|[k' v'] r IH]; simpl; auto.
  destruct (keqb_spec k k') as [E|N]; simpl; auto.
  destruct (keqb_spec k k'); congruence.
Qed.

Lemma mget_mdelete_other k k' m : k' <> k -> mget k' (mdelete k m) = mget k' m.
Proof.
  intros N. induction m as [|[k0 v0] r IH]; simpl; auto.
  destruct (keqb_spec k k0) as [E|N0]; simpl.
  - subst k0. destruct (keqb_spec k' k); congruence.
  - destruct (keqb_spec k' k0); congruence.
Qed.

(** Writing back the value a key already has changes nothing. *)
Lemma mset_same_value k v m : mget k m = Some v -> mset k v m = m.
Proof.
  induction m as [|[k0 v0] r IH]; simpl; [discriminate|].
  destruct (keqb_spec k k0) as [E|N]; intros H.
  - congruence.
  - now rewrite IH.
Qed.

Lemma mset_mset k v w m : mset k w (mset k v m) = mset k w m.
Proof.
  induction m as [|[k0 v0] r IH]; simpl.
  - destruct (keqb_spec k k); congruence.
  - destruct (keqb_spec k k0) as [E|N]; simpl.
    + destruct (keqb_spec k k); congruence.
    + destruct (keqb_spec k k0); congruence.
Qed.

Definition keys (m : map) : list K := List.map fst m.

Lemma in_keys_mget k m : In k (keys m) <-> mget k m <> None.
Proof.
  induction m as [|[k0 v0] r IH]; simpl; [tauto|].
  destruct (keqb_spec k k0) as [E|N].
  - split; [congruence|auto].
  - rewrite <- IH. split; [intros [?|?]; congruence || auto | auto].
Qed.

Lemma keys_mset k v m :
  keys (mset k v m) = if mhas k m then keys m else keys m ++ [k].
Proof.
  unfold mhas. induction m as [|[k0 v0] r IH]; simpl; auto.
  destruct (keqb_spec k k0) as [E|N]; simpl; [congruence|].
  rewrite IH. destruct (mget k r); auto.
Qed.

Lemma NoDup_keys_mset k v m : NoDup (keys m) -> NoDup (keys (mset k v m)).
Proof.
  intros H. rewrite keys_mset. unfold mhas.
  destruct (mget k m) eqn:E; auto.
  apply NoDup_app; auto.
  - repeat constructor; simpl; tauto.
  - intros x Hx [<-|[]]. apply in_keys_mget in Hx. congruence.
Qed.

Lemma NoDup_keys_mdelete k m : NoDup (keys m) -> NoDup (keys (mdelete k m)).
Proof.
  induction m as [|[k0 v0] r IH]; simpl; auto.
  intros H. inversion H as [|? ? Hn Hr]; subst.
  destruct (keqb k k0); simpl; auto.
  constructor; auto.
  intros Hi. apply Hn. unfold keys, mdelete in *.
  apply in_map_iff in Hi. destruct Hi as [[a b] [E Hi]].
  apply filter_In in Hi. apply in_map_iff. exists (a, b). tauto.
Qed.

Lemma mget_In k v m : mget k m = Some v -> In (k, v) m.
Proof.
  induction m as [|[k0 v0] r IH]; simpl; [discriminate|].
  destruct (keqb_spec k k0) as [E|N]; intros H.
  - left. congruence.
  - right. auto.
Qed.

Lemma In_mget k v m : NoDup (keys m) -> In (k, v) m -> mget k m = Some v.
Proof.
  induction m as [|[k0 v0] r IH]; simpl; [tauto|].
  intros H. inversion H as [|? ? Hn Hr]; subst.
  intros [E|Hi].
  - inversion E; subst. destruct (keqb_spec k k); congruence.
  - destruct (keqb_spec k k0) as [E|N]; auto.
    subst. exfalso. apply Hn. unfold keys. apply in_map_iff.
    exists (k0, v). auto.
Qed.
End Maps.

Unset Implicit Arguments.

End Js.

(** ** Strings: separators, splitting, upper case *)

Module Str.

#[local] Open Scope string_scope.

Definition colon : ascii := ":"%char.

(** The string contains no [":"]. *)
Fixpoint nocolon (s : string) : bool :=
  match s with
  | EmptyString => true
  | String c r => negb (Ascii.eqb c colon) && nocolon r
  end.

(** [s.split(":")]: never empty, one more part than there are separators. *)
Fixpoint split (s : string) : list string :=
  match s with
  | EmptyString => [""]
  | String c r =>
      if Ascii.eqb c colon then "" :: split r
      else match split r with
           | h :: t => String c h :: t
           | [] => [String c ""]
           end
  end.

(** ASCII upper case.  [toUpperCase] also maps some non-ASCII letters, none
    of them to a string of the letters the region names are written with, so
    the comparison with the region list is unaffected. *)
Definition upper_ascii (c : ascii) : ascii :=
  let n := nat_of_ascii c in
  if ((97 <=? n) && (n <=? 122))%nat then ascii_of_nat (n - 32) else c.

Fixpoint toUpperCase (s : string) : string :=
  match s with
  | EmptyString => EmptyString
  | String c r => String (upper_ascii c) (toUpperCase r)
  end.

(** [s.replace(/-/g, "")] *)
Fixpoint removeDashes (s : string) : string :=
  match s with
  | EmptyString => EmptyString
  | String c r =>
      if Ascii.eqb c "-"%char then removeDashes r else String c (removeDashes r)
  end.

Lemma append_assoc (a b c : string) : (a ++ b) ++ c = a ++ (b ++ c).
Proof. induction a; simpl; congruence. Qed.

Lemma append_cancel_l (a x y : string) : a ++ x = a ++ y -> x = y.
Proof. induction a; simpl; intros H; [auto | inversion H; auto]. Qed.

Lemma nocolon_append a b : nocolon (a ++ b) = nocolon a && nocolon b.
Proof. induction a; simpl; auto. rewrite IHa. now rewrite andb_assoc. Qed.

(** A separator after a separator-free prefix is found at the same place in
    both strings. *)
Lemma sep_inj_left a a' b b' :
  nocolon a = true -> nocolon a' = true ->
  a ++ String colon b = a' ++ String colon b' -> a = a' /\ b = b'.
Proof.
  revert a'. induction a as [|c a IH]; intros [|c' a'] Ha Ha' E; simpl in *.
  - inversion E; auto.
  - inversion E; subst. rewrite Ascii.eqb_refl in Ha'. discriminate.
  - inversion E; subst. rewrite Ascii.eqb_refl in Ha. discriminate.
  - inversion E; subst.
    apply andb_true_iff in Ha, Ha'.
    destruct (IH a' (proj2 Ha) (proj2 Ha') H1). split; congruence.
Qed.

Lemma nocolon_sep a b : nocolon (a ++ String colon b) = false.
Proof.
  rewrite nocolon_append. simpl. apply andb_false_r.
Qed.

(** A separator before a separator-free suffix is found at the same place in
    both strings. *)
Lemma sep_inj_right a a' b b' :
  nocolon b = true -> nocolon b' = true ->
  a ++ String colon b = a' ++ String colon b' -> a = a' /\ b = b'.
Proof.
  intros Hb Hb'. revert a'.
  induction a as [|c a IH]; intros [|c' a'] E; simpl in *.
  - inversion E; auto.
  - inversion E as [[Ec Eb]]. rewrite Eb, nocolon_sep in Hb. discriminate.
  - inversion E as [[Ec Eb]]. rewrite <- Eb, nocolon_sep in Hb'. discriminate.
  - inversion E as [[Ec Eb]]. destruct (IH a' Eb). split; congruence.
Qed.

Lemma split_nocolon s : nocolon s = true -> split s = [s].
Proof.
  induction s as [|c r IH]; simpl; auto.
  intros H. apply andb_true_iff in H. destruct H as [Hc Hr].
  destruct (Ascii.eqb c colon); [discriminate|].
  now rewrite (IH Hr).
Qed.

Lemma split_sep a b :
  nocolon a = true -> split (a ++ String colon b) = a :: split b.
Proof.
  induction a as [|c r IH]; simpl.
  - reflexivity.
  - intros H. apply andb_true_iff in H. destruct H as [Hc Hr].
    destruct (Ascii.eqb c colon); [discriminate|].
    now rewrite (IH Hr).
Qed.

End Str.

(** ** Lemmas on the set operations *)

Module SetFacts.
Import Js.

Lemma shas_In x s : shas x s = true <-> In x s.
Proof.
  unfold shas. rewrite existsb_exists. split.
  - intros [y [Hy E]]. apply String.eqb_eq in E. now subst.
  - intros H. exists x. split; auto. apply String.eqb_refl.
Qed.

Lemma In_sadd y x s : In y (sadd x s) <-> In y s \/ y = x.
Proof.
  unfold sadd. destruct (shas x s) eqn:E.
  - apply shas_In in E. split; [auto | intros [?|E']; subst; auto].
  - rewrite in_app_iff. simpl. intuition.
Qed.

Lemma NoDup_sadd x s : NoDup s -> NoDup (sadd x s).
Proof.
  intros H. unfold sadd. destruct (shas x s) eqn:E; auto.
  assert (N : ~ In x s) by (rewrite <- shas_In; congruence).
  apply NoDup_app; auto.
  - repeat constructor; simpl; tauto.
  - intros y Hy [<-|[]]. auto.
Qed.

Lemma sadd_nonempty x s : sadd x s <> [].
Proof.
  intros E. assert (H : In x (sadd x s)) by (apply In_sadd; auto).
  rewrite E in H. inversion H.
Qed.

Lemma In_sdelete y x s : In y (sdelete x s) <-> In y s /\ y <> x.
Proof.
  unfold sdelete. rewrite filter_In, negb_true_iff, String.eqb_neq.
  intuition.
Qed.

Lemma NoDup_sdelete x s : NoDup s -> NoDup (sdelete x s).
Proof. apply NoDup_filter. Qed.


End SetFacts.

(** ** The in-memory database and the helpers both files share *)

Module Db.
Import Js.

Definition timestamp := string.

(** A wishlist entry, as pushed by the add handler. *)
Record item := mkItem {
  skinId : option string;
  skinName : string;
  source : string;
  addedAt : timestamp
}.

(** The value stored in [db.wishlist] under a user id. *)
Record user := mkUser {
  region : string;
  items : list item;
  createdAt : timestamp;
  updatedAt : timestamp
}.

(** [db]: the forward index [wishlist] and the reverse index
    [skinSubscriptions], whose sets hold the composite strings
    ["<anonUserId>:<region>:<source>"]. *)
Record db := mkDb {
  wishlist : map string user;
  skinSubscriptions : map (option string) set
}.

Definition regions : list string :=
  ["TR"; "EU"; "NA"; "AP"; "KR"; "BR"; "LATAM"]%string.

Definition empty : db := mkDb [] [].

Abbreviation wget := (mget String.eqb).
Abbreviation wset := (mset String.eqb).
Abbreviation bget := (mget oeqb).
Abbreviation bhas := (mhas oeqb).
Abbreviation bset := (mset oeqb).
Abbreviation bdelete := (mdelete oeqb).

(** [generateAnonUserId], with the value of [uuidv4()] as argument. *)
Definition generateAnonUserId (uuid : string) : string :=
  ("anon_" ++ String.substring 0 16 (Str.removeDashes uuid))%string.

(** [normalizeRegion] *)
Definition normalizeRegion (r : option string) : string :=
  let upper := Str.toUpperCase (orElse r "EU") in
  if existsb (String.eqb upper) regions then upper else "EU"%string.

(** [generateTopic] / [generateTopicName]: the arguments are interpolated, so
    an [undefined] one prints as ["undefined"]. *)
Definition generateTopic (rgn src skin : option string) : string :=
  ("valohub/" ++ str rgn ++ "/" ++ str src ++ "/" ++ str skin)%string.

(** The composite string [`${anonUserId}:${region}:${source}`]. *)
Definition subKey (uid rgn src : string) : string :=
  (uid ++ ":" ++ rgn ++ ":" ++ src)%string.

(** [const [anonUserId, region, source] = sub.split(":")]: a missing part is
    [undefined]. *)
Definition parseSub (sub : string)
  : option string * option string * option string :=
  let parts := Str.split sub in
  (nth_error parts 0, nth_error parts 1, nth_error parts 2).

(** The user record both add handlers create for an unseen user id. *)
Definition newUser (rgn : string) (now : timestamp) : user :=
  mkUser rgn [] now now.

(** [i.skinId === skinId && i.source === source] *)
Definition sameItem (skin : option string) (src : string) (i : item) : bool :=
  oeqb (skinId i) skin && String.eqb (source i) src.

(** *** Updates of the reverse index *)

(** [if (!subs.has(k)) subs.set(k, new Set()); subs.get(k).add(e)] *)
Definition ensureAdd (k : option string) (e : string)
  (subs : map (option string) set) : map (option string) set :=
  let subs1 := if bhas k subs then subs else bset k [] subs in
  match bget k subs1 with
  | Some s => bset k (sadd e s) subs1
  | None => subs1
  end.

(** [const s = subs.get(k); if (s) s.delete(e)] *)
Definition deleteAt (k : option string) (e : string)
  (subs : map (option string) set) : map (option string) set :=
  match bget k subs with
  | Some s => bset k (sdelete e s) subs
  | None => subs
  end.

(** [const s = subs.get(k);
     if (s) { s.delete(e); if (s.size === 0) subs.delete(k) }] *)
Definition deletePrune (k : option string) (e : string)
  (subs : map (option string) set) : map (option string) set :=
  match bget k subs with
  | Some s =>
      let s' := sdelete e s in
      let subs1 := bset k s' subs in
      if Nat.eqb (length s') 0 then bdelete k subs1 else subs1
  | None => subs
  end.

(** [const s = subs.get(k); if (!s) return; s.delete(o); s.add(n)] *)
Definition replaceAt (k : option string) (o n : string)
  (subs : map (option string) set) : map (option string) set :=
  match bget k subs with
  | Some s => bset k (sadd n (sdelete o s)) subs
  | None => subs
  end.

(** [POST /api/user/register]: the same in both files but for the shape of
    the response; the result is the new store, the id and the region. *)
Definition registerUser (d : db) (uuid : string) (rgn : option string)
  (now : timestamp) : db * (string * string) :=
  let r := normalizeRegion rgn in
  let anonUserId := generateAnonUserId uuid in
  (mkDb (wset anonUserId (newUser r now) (wishlist d)) (skinSubscriptions d),
   (anonUserId, r)).

(** [GET /api/wishlist/:anonUserId]: region, items and topics; the same in
    both files. *)
Definition getUser (d : db) (uid : string)
  : string * list item * list string :=
  match wget uid (wishlist d) with
  | None => ("EU"%string, [], [])
  | Some u =>
      (region u, items u,
       List.map (fun i => generateTopic (Some (region u)) (Some (source i))
                            (skinId i)) (items u))
  end.

(** [Set.add] on the per-skin set of regions, whose elements are the second
    parts of the split strings. *)
Definition addRegion (r : option string) (s : list (option string))
  : list (option string) :=
  if existsb (oeqb r) s then s else s ++ [r].

(** One element of the [subscriptions] array of the worker query. *)
Record subscription := mkSub {
  subUser : option string;
  subRegion : option string;
  subSource : option string;
  subTopic : string
}.

(** [GET /api/internal/subscriptions/:skinId].  The second file also returns
    the empty list for an empty set, which [map] over no element gives as
    well. *)
Definition queryBySkin (d : db) (skin : string) : list subscription :=
  match bget (Some skin) (skinSubscriptions d) with
  | None => []
  | Some subs =>
      List.map (fun s =>
        let '(u, r, src) := parseSub s in
        mkSub u r src (generateTopic r src (Some skin))) subs
  end.

End Db.

(** ** The handlers of [src/unnamed/part_000] *)

Module Part000.
Import Js Db.

Definition validSources : list string := ["store"; "night"; "bundle"]%string.

(** [const { source = 'store' } = req.body;
     const normalizedSource = validSources.includes(source) ? source : 'store'] *)
Definition normalizedSource (src : option string) : string :=
  let source := default src "store" in
  if existsb (String.eqb source) validSources then source else "store"%string.

Inductive regionResult :=
| RegionNotFound
| RegionOk (newRegion : string).

(** The body of [userData.items.forEach] in the region handler. *)
Definition relocate (uid oldRegion newRegion : string)
  (subs : map (option string) set) (it : item) : map (option string) set :=
  ensureAdd (skinId it) (subKey uid newRegion (source it))
    (deleteAt (skinId it) (subKey uid oldRegion (source it)) subs).

(** [PUT /api/user/:anonUserId/region] *)
Definition setUserRegion (d : db) (uid : string) (rgn : option string)
  (now : timestamp) : db * regionResult :=
  match wget uid (wishlist d) with
  | None => (d, RegionNotFound)
  | Some userData =>
      let oldRegion := region userData in
      let newRegion := normalizeRegion rgn in
      let userData' :=
        mkUser newRegion (items userData) (createdAt userData) now in
      (mkDb (wset uid userData' (wishlist d))
            (fold_left (relocate uid oldRegion newRegion) (items userData)
               (skinSubscriptions d)),
       RegionOk newRegion)
  end.

Inductive addResult :=
| AlreadyInWishlist (topic : string)
| Added (newItem : item) (topic : string).

Definition addTopic (r : addResult) : string :=
  match r with AlreadyInWishlist t => t | Added _ t => t end.

(** [POST /api/wishlist/:anonUserId] *)
Definition addItem (d : db) (uid : string) (skin skinNm src : option string)
  (now : timestamp) : db * addResult :=
  let normalized := normalizedSource src in
  let '(userData, wl) :=
    match wget uid (wishlist d) with
    | Some u => (u, wishlist d)
    | None => let u := newUser "EU" now in (u, wset uid u (wishlist d))
    end in
  let topic := generateTopic (Some (region userData)) (Some normalized) skin in
  if existsb (sameItem skin normalized) (items userData) then
    (mkDb wl (skinSubscriptions d), AlreadyInWishlist topic)
  else
    let newItem := mkItem skin (orElse skinNm "Unknown Skin") normalized now in
    let userData' :=
      mkUser (region userData) (items userData ++ [newItem])
             (createdAt userData) now in
    (mkDb (wset uid userData' wl)
          (ensureAdd skin (subKey uid (region userData) normalized)
             (skinSubscriptions d)),
     Added newItem topic).

Inductive removeResult :=
| UserNotFound
| ItemNotFound
| Removed (unsubscribeTopic : string).

(** [DELETE /api/wishlist/:anonUserId/:skinId] *)
Definition removeItem (d : db) (uid skin : string) (src : option string)
  (now : timestamp) : db * removeResult :=
  let source := default src "store" in
  match wget uid (wishlist d) with
  | None => (d, UserNotFound)
  | Some userData =>
      let kept :=
        filter (fun i => negb (sameItem (Some skin) source i))
          (items userData) in
      let userData1 :=
        mkUser (region userData) kept (createdAt userData)
               (updatedAt userData) in
      let wl1 := wset uid userData1 (wishlist d) in
      if Nat.eqb (length kept) (length (items userData)) then
        (mkDb wl1 (skinSubscriptions d), ItemNotFound)
      else
        let userData2 :=
          mkUser (region userData) kept (createdAt userData) now in
        (mkDb (wset uid userData2 wl1)
              (deletePrune (Some skin)
                 (subKey uid (region userData) source) (skinSubscriptions d)),
         Removed (generateTopic (Some (region userData)) (Some source)
                    (Some skin)))
  end.

Definition activeMap := map (option string) (list (option string)).

(** The body of the inner [subs.forEach] of the active-skins handler. *)
Definition collect (src skin : option string) (acc : activeMap)
  (sub : string) : activeMap :=
  let '(_, rgn, itemSource) := parseSub sub in
  if falsy src || oeqb itemSource src then
    let acc1 := if mhas oeqb skin acc then acc else mset oeqb skin [] acc in
    match mget oeqb skin acc1 with
    | Some regs => mset oeqb skin (addRegion rgn regs) acc1
    | None => acc1
    end
  else acc.

(** [GET /api/internal/active-skins]: the [skins] array, one pair of skin id
    and regions per key of the collected map. *)
Definition activeSkins (d : db) (src : option string) : activeMap :=
  fold_left
    (fun acc kv => fold_left (collect src (fst kv)) (snd kv) acc)
    (skinSubscriptions d) [].

End Part000.

(** ** The handlers of [src/server.js] *)

Module Server.
Import Js Db.

Inductive regionResult :=
| RegionNotFound
| RegionOk (newRegion : string).

(** The body of [user.items.forEach] in the region handler. *)
Definition relocate (uid oldRegion newRegion : string)
  (subs : map (option string) set) (it : item) : map (option string) set :=
  replaceAt (skinId it) (subKey uid oldRegion (source it))
    (subKey uid newRegion (source it)) subs.

(** [PUT /api/user/:anonUserId/region] *)
Definition setUserRegion (d : db) (uid : string) (rgn : option string)
  (now : timestamp) : db * regionResult :=
  let newRegion := normalizeRegion rgn in
  match wget uid (wishlist d) with
  | None => (d, RegionNotFound)
  | Some user =>
      let oldRegion := region user in
      let user' := mkUser newRegion (items user) (createdAt user) now in
      (mkDb (wset uid user' (wishlist d))
            (fold_left (relocate uid oldRegion newRegion) (items user)
               (skinSubscriptions d)),
       RegionOk newRegion)
  end.

Inductive addResult :=
| SkinIdRequired
| AddOk (topic : string).

(** [POST /api/wishlist/:anonUserId] *)
Definition addItem (d : db) (uid : string) (skin skinNm src : option string)
  (now : timestamp) : db * addResult :=
  let source := default src "store" in
  if falsy skin then (d, SkinIdRequired)
  else
    let '(user, wl) :=
      match wget uid (wishlist d) with
      | Some u => (u, wishlist d)
      | None => let u := newUser "EU" now in (u, wset uid u (wishlist d))
      end in
    let topic := generateTopic (Some (region user)) (Some source) skin in
    if existsb (sameItem skin source) (items user) then
      (mkDb wl (skinSubscriptions d), AddOk topic)
    else
      let newItem := mkItem skin (orElse skinNm "Unknown") source now in
      let user' :=
        mkUser (region user) (items user ++ [newItem]) (createdAt user)
               (updatedAt user) in
      (mkDb (wset uid user' wl)
            (ensureAdd skin (subKey uid (region user) source)
               (skinSubscriptions d)),
       AddOk topic).

Inductive removeResult :=
| UserNotFound
| RemoveOk.

(** [DELETE /api/wishlist/:anonUserId/:skinId] *)
Definition removeItem (d : db) (uid skin : string) (src : option string)
  : db * removeResult :=
  let source := orElse src "store" in
  match wget uid (wishlist d) with
  | None => (d, UserNotFound)
  | Some user =>
      let kept :=
        filter (fun i => negb (sameItem (Some skin) source i)) (items user) in
      let user' :=
        mkUser (region user) kept (createdAt user) (updatedAt user) in
      (mkDb (wset uid user' (wishlist d))
            (deletePrune (Some skin) (subKey uid (region user) source)
               (skinSubscriptions d)),
       RemoveOk)
  end.

Definition activeMap := map (option string) (list (option string)).

(** The body of the inner [subs.forEach] of the active-skins handler: the
    third part of the split string is bound and not used. *)
Definition collect (skin : option string) (acc : activeMap) (sub : string)
  : activeMap :=
  let '(_, rgn, _) := parseSub sub in
  let acc1 := if mhas oeqb skin acc then acc else mset oeqb skin [] acc in
  match mget oeqb skin acc1 with
  | Some regs => mset oeqb skin (addRegion rgn regs) acc1
  | None => acc1
  end.

(** [GET /api/internal/active-skins]: the handler reads no query parameter;
    the argument [src] is the [source] a caller may send, which it ignores. *)
Definition activeSkins (d : db) (src : option string) : activeMap :=
  fold_left
    (fun acc kv => fold_left (collect (fst kv)) (snd kv) acc)
    (skinSubscriptions d) [].

End Server.

(** ** The reverse index: what each update does to the buckets *)

Module Index.
Import Js Db SetFacts.

Definition index := map (option string) set.

(** The set stored under a skin id, empty when there is none. *)
Definition bucket (subs : index) (k : option string) : set :=
  match bget k subs with Some s => s | None => [] end.

Lemma bget_bset_same k v (m : index) : bget k (bset k v m) = Some v.
Proof. apply mget_mset_same, oeqb_spec. Qed.

Lemma bget_bset_other k k' v (m : index) :
  k' <> k -> bget k' (bset k v m) = bget k' m.
Proof. apply mget_mset_other, oeqb_spec. Qed.

Lemma bget_ensureAdd k e subs k' :
  bget k' (ensureAdd k e subs) =
  if oeqb k' k then Some (sadd e (bucket subs k)) else bget k' subs.
Proof.
  unfold ensureAdd, bucket, mhas.
  destruct (oeqb_spec k' k) as [->|N].
  - destruct (bget k subs) as [s|] eqn:E.
    + rewrite E. apply bget_bset_same.
    + rewrite bget_bset_same, mset_mset by apply oeqb_spec.
      apply bget_bset_same.
  - destruct (bget k subs) as [s|] eqn:E.
    + rewrite E. now apply bget_bset_other.
    + rewrite bget_bset_same, !bget_bset_other by auto. reflexivity.
Qed.

Lemma bget_deleteAt k e subs k' :
  bget k' (deleteAt k e subs) =
  if oeqb k' k then option_map (sdelete e) (bget k subs) else bget k' subs.
Proof.
  unfold deleteAt. destruct (oeqb_spec k' k) as [->|N].
  - destruct (bget k subs) as [s|] eqn:E; simpl; auto.
    apply bget_bset_same.
  - destruct (bget k subs) as [s|] eqn:E; auto.
    now apply bget_bset_other.
Qed.

Lemma bget_deletePrune k e subs k' :
  bget k' (deletePrune k e subs) =
  if oeqb k' k then
    match bget k subs with
    | Some s => if Nat.eqb (length (sdelete e s)) 0 then None
                else Some (sdelete e s)
    | None => None
    end
  else bget k' subs.
Proof.
  unfold deletePrune. destruct (oeqb_spec k' k) as [->|N].
  - destruct (bget k subs) as [s|] eqn:E; auto.
    destruct (Nat.eqb (length (sdelete e s)) 0).
    + apply mget_mdelete_same, oeqb_spec.
    + apply bget_bset_same.
  - destruct (bget k subs) as [s|] eqn:E; auto.
    destruct (Nat.eqb (length (sdelete e s)) 0).
    + rewrite mget_mdelete_other by (apply oeqb_spec || auto).
      now apply bget_bset_other.
    + now apply bget_bset_other.
Qed.

Lemma bget_replaceAt k o n subs k' :
  bget k' (replaceAt k o n subs) =
  if oeqb k' k then option_map (fun s => sadd n (sdelete o s)) (bget k subs)
  else bget k' subs.
Proof.
  unfold replaceAt. destruct (oeqb_spec k' k) as [->|N].
  - destruct (bget k subs) as [s|] eqn:E; simpl; auto.
    apply bget_bset_same.
  - destruct (bget k subs) as [s|] eqn:E; auto.
    now apply bget_bset_other.
Qed.

(** The representation invariant of the reverse index: no key twice, every
    set duplicate-free, and no set empty. *)
Record WF (subs : index) : Prop := {
  wf_keys : NoDup (keys subs);
  wf_set : forall k s, bget k subs = Some s -> NoDup s;
  wf_nonempty : forall k s, bget k subs = Some s -> s <> []
}.

Lemma WF_empty : WF [].
Proof. constructor; simpl; [constructor | discriminate | discriminate]. Qed.

Lemma NoDup_bucket subs k : WF subs -> NoDup (bucket subs k).
Proof.
  intros H. unfold bucket. destruct (bget k subs) eqn:E.
  - eapply wf_set; eauto.
  - constructor.
Qed.

Lemma keys_ensureAdd k e subs : NoDup (keys subs) -> NoDup (keys (ensureAdd k e subs)).
Proof.
  intros H. unfold ensureAdd.
  set (subs1 := if bhas k subs then subs else bset k [] subs).
  assert (H1 : NoDup (keys subs1)).
  { unfold subs1. destruct (bhas k subs); auto.
    apply NoDup_keys_mset; auto. apply oeqb_spec. }
  destruct (bget k subs1); auto.
  apply NoDup_keys_mset; auto. apply oeqb_spec.
Qed.

Lemma keys_deleteAt k e subs : NoDup (keys subs) -> NoDup (keys (deleteAt k e subs)).
Proof.
  intros H. unfold deleteAt. destruct (bget k subs); auto.
  apply NoDup_keys_mset; auto. apply oeqb_spec.
Qed.

Lemma WF_ensureAdd k e subs : WF subs -> WF (ensureAdd k e subs).
Proof.
  intros H. constructor.
  - apply keys_ensureAdd, H.
  - intros k' s. rewrite bget_ensureAdd.
    destruct (oeqb k' k); [|apply H].
    intros E. inversion E. apply NoDup_sadd, NoDup_bucket, H.
  - intros k' s. rewrite bget_ensureAdd.
    destruct (oeqb k' k); [|apply H].
    intros E. inversion E. apply sadd_nonempty.
Qed.

Lemma WF_deletePrune k e subs : WF subs -> WF (deletePrune k e subs).
Proof.
  intros H. constructor.
  - unfold deletePrune. destruct (bget k subs); [|apply H].
    destruct (Nat.eqb _ 0).
    + apply NoDup_keys_mdelete, NoDup_keys_mset; [apply oeqb_spec | apply H].
    + apply NoDup_keys_mset; [apply oeqb_spec | apply H].
  - intros k' s. rewrite bget_deletePrune.
    destruct (oeqb k' k); [|apply H].
    destruct (bget k subs) as [s0|] eqn:E; [|discriminate].
    destruct (Nat.eqb _ 0); [discriminate|].
    intros E'. inversion E'. apply NoDup_sdelete. eapply wf_set; eauto.
  - intros k' s. rewrite bget_deletePrune.
    destruct (oeqb k' k); [|apply H].
    destruct (bget k subs) as [s0|] eqn:E; [|discriminate].
    destruct (Nat.eqb _ 0) eqn:L; [discriminate|].
    intros E' ->. inversion E' as [E'']. rewrite E'' in L. discriminate.
Qed.

Lemma WF_replaceAt k o n subs : WF subs -> WF (replaceAt k o n subs).
Proof.
  intros H. constructor.
  - unfold replaceAt. destruct (bget k subs); [|apply H].
    apply NoDup_keys_mset; [apply oeqb_spec | apply H].
  - intros k' s. rewrite bget_replaceAt.
    destruct (oeqb k' k); [|apply H].
    destruct (bget k subs) as [s0|] eqn:E; [|discriminate].
    simpl. intros E'. inversion E'.
    apply NoDup_sadd, NoDup_sdelete. eapply wf_set; eauto.
  - intros k' s. rewrite bget_replaceAt.
    destruct (oeqb k' k); [|apply H].
    destruct (bget k subs) as [s0|] eqn:E; [|discriminate].
    simpl. intros E'. inversion E'. apply sadd_nonempty.
Qed.

(** Deleting and then adding under the same key, as the second file does on
    a region change: the set may be empty in between, never afterwards. *)
Lemma WF_delete_add k o n subs :
  WF subs -> WF (ensureAdd k n (deleteAt k o subs)).
Proof.
  intros H. constructor.
  - apply keys_ensureAdd, keys_deleteAt, H.
  - intros k' s. rewrite bget_ensureAdd.
    destruct (oeqb_spec k' k) as [->|N].
    + intros E. inversion E. apply NoDup_sadd.
      unfold bucket. rewrite bget_deleteAt, oeqb_refl.
      destruct (bget k subs) eqn:E'; simpl; [|constructor].
      apply NoDup_sdelete. eapply wf_set; eauto.
    + rewrite bget_deleteAt. apply oeqb_neq in N. rewrite N. apply H.
  - intros k' s. rewrite bget_ensureAdd.
    destruct (oeqb_spec k' k) as [->|N].
    + intros E. inversion E. apply sadd_nonempty.
    + rewrite bget_deleteAt. apply oeqb_neq in N. rewrite N. apply H.
Qed.

End Index.

(** ** Membership in the reverse index *)

Module Entries.
Import Js Db SetFacts Index.

(** [e] is in the set stored under [k]. *)
Definition InB (subs : index) (k : option string) (e : string) : Prop :=
  In e (bucket subs k).

Lemma InB_bget subs k e :
  InB subs k e <-> exists s, bget k subs = Some s /\ In e s.
Proof.
  unfold InB, bucket. destruct (bget k subs) as [s|]; split.
  - intros H. eauto.
  - intros [s' [E H]]. congruence.
  - intros [].
  - intros [s' [E H]]. discriminate.
Qed.

Lemma InB_ensureAdd k e subs k' e' :
  InB (ensureAdd k e subs) k' e' <-> InB subs k' e' \/ (k' = k /\ e' = e).
Proof.
  unfold InB, bucket at 1. rewrite bget_ensureAdd.
  destruct (oeqb_spec k' k) as [->|N].
  - rewrite In_sadd. intuition.
  - fold (bucket subs k'). intuition.
Qed.

Lemma InB_deleteAt k e subs k' e' :
  InB (deleteAt k e subs) k' e' <-> InB subs k' e' /\ ~ (k' = k /\ e' = e).
Proof.
  unfold InB, bucket at 1. rewrite bget_deleteAt.
  destruct (oeqb_spec k' k) as [->|N].
  - unfold bucket. destruct (bget k subs); simpl.
    + rewrite In_sdelete. intuition.
    + intuition.
  - fold (bucket subs k'). intuition.
Qed.

Lemma length_zero_nil {A : Type} (l : list A) :
  Nat.eqb (length l) 0 = true -> l = [].
Proof. destruct l; simpl; [auto | discriminate]. Qed.

Lemma InB_deletePrune k e subs k' e' :
  InB (deletePrune k e subs) k' e' <-> InB subs k' e' /\ ~ (k' = k /\ e' = e).
Proof.
  unfold InB, bucket at 1. rewrite bget_deletePrune.
  destruct (oeqb_spec k' k) as [->|N].
  - unfold bucket. destruct (bget k subs) as [s|]; simpl.
    + destruct (Nat.eqb (length (sdelete e s)) 0) eqn:L.
      * assert (Z := length_zero_nil _ L).
        assert (I := In_sdelete e' e s). rewrite Z in I. simpl in I.
        intuition.
      * rewrite In_sdelete. intuition.
    + intuition.
  - fold (bucket subs k'). intuition.
Qed.

Lemma InB_replaceAt k o n subs k' e' :
  bget k subs <> None ->
  InB (replaceAt k o n subs) k' e' <->
  (InB subs k' e' /\ ~ (k' = k /\ e' = o)) \/ (k' = k /\ e' = n).
Proof.
  intros Hk. unfold InB, bucket at 1. rewrite bget_replaceAt.
  destruct (oeqb_spec k' k) as [->|N].
  - unfold bucket. destruct (bget k subs); simpl; [|congruence].
    rewrite In_sadd, In_sdelete. intuition.
  - fold (bucket subs k'). intuition.
Qed.

Lemma InB_delete_add k o n subs k' e' :
  InB (ensureAdd k n (deleteAt k o subs)) k' e' <->
  (InB subs k' e' /\ ~ (k' = k /\ e' = o)) \/ (k' = k /\ e' = n).
Proof. rewrite InB_ensureAdd, InB_deleteAt. tauto. Qed.

(** *** A loop of delete-then-add steps *)

Section Moves.
Context {A : Type}.
Variables (keyOf : A -> option string) (old new : A -> string).
Variable f : index -> A -> index.

(** The step replaces [old a] by [new a] under [keyOf a] when that key has a
    set, and never drops a key. *)
Hypothesis f_moves : forall subs a,
  bget (keyOf a) subs <> None ->
  forall k e, InB (f subs a) k e <->
    (InB subs k e /\ ~ (k = keyOf a /\ e = old a)) \/ (k = keyOf a /\ e = new a).
Hypothesis f_keeps : forall subs a k,
  bget k subs <> None -> bget k (f subs a) <> None.

(** No step deletes what an earlier step has added. *)
Fixpoint NoClash (l : list A) : Prop :=
  match l with
  | [] => True
  | a :: r =>
      (forall b, In b r -> ~ (keyOf a = keyOf b /\ new a = old b)) /\ NoClash r
  end.

Lemma fold_moves l : forall subs,
  (forall a, In a l -> bget (keyOf a) subs <> None) ->
  NoClash l ->
  forall k e, InB (fold_left f l subs) k e <->
    (InB subs k e /\ ~ (exists a, In a l /\ k = keyOf a /\ e = old a)) \/
    (exists a, In a l /\ k = keyOf a /\ e = new a).
Proof.
  induction l as [|a r IH]; simpl; intros subs Hk Hc k e.
  - split; [intros H; left; split; auto; intros [? [[] _]] | ].
    intros [[H _]|[? [[] _]]]. exact H.
  - destruct Hc as [Ha Hr].
    rewrite IH; auto.
    rewrite f_moves by auto. split.
    + intros [[[[H N]|[-> ->]] M]|[b [Hb E]]].
      * left. split; auto. intros [b [[<-|Hb] E]]; [tauto|].
        apply M. eauto.
      * right. exists a. auto.
      * right. exists b. auto.
    + intros [[H M]|[b [[<-|Hb] [-> ->]]]].
      * left. split.
        -- left. split; auto. intros E. apply M. exists a. tauto.
        -- intros [b [Hb E]]. apply M. exists b. tauto.
      * left. split; [right; auto|].
        intros [c [Hc E]]. apply (Ha c Hc). tauto.
      * right. exists b. auto.
Qed.

End Moves.

Lemma fold_WF {A : Type} (f : index -> A -> index) l :
  (forall subs a, WF subs -> WF (f subs a)) ->
  forall subs, WF subs -> WF (fold_left f l subs).
Proof.
  intros Hf. induction l as [|a r IH]; simpl; intros subs H; auto.
Qed.

End Entries.

(** ** The composite strings *)

Module Keys.
Import Js Db.

Lemma subKey_sep uid rgn src :
  subKey uid rgn src = (uid ++ String Str.colon (rgn ++ String Str.colon src))%string.
Proof. reflexivity. Qed.

Lemma subKey_sep_assoc uid rgn src :
  subKey uid rgn src =
  ((uid ++ String Str.colon rgn) ++ String Str.colon src)%string.
Proof. rewrite subKey_sep, Str.append_assoc. reflexivity. Qed.

(** Region and source free of [":"]: the string determines the triple. *)
Lemma subKey_inj_right u r s u' r' s' :
  Str.nocolon r = true -> Str.nocolon s = true ->
  Str.nocolon r' = true -> Str.nocolon s' = true ->
  subKey u r s = subKey u' r' s' -> u = u' /\ r = r' /\ s = s'.
Proof.
  intros Hr Hs Hr' Hs' E. rewrite !subKey_sep_assoc in E.
  apply Str.sep_inj_right in E; [|assumption..]. destruct E as [E ->].
  apply Str.sep_inj_right in E; [|assumption..]. tauto.
Qed.

(** User id and region free of [":"]: the string determines the triple. *)
Lemma subKey_inj_left u r s u' r' s' :
  Str.nocolon u = true -> Str.nocolon r = true ->
  Str.nocolon u' = true -> Str.nocolon r' = true ->
  subKey u r s = subKey u' r' s' -> u = u' /\ r = r' /\ s = s'.
Proof.
  intros Hu Hr Hu' Hr' E. rewrite !subKey_sep in E.
  apply Str.sep_inj_left in E; [|assumption..]. destruct E as [-> E].
  apply Str.sep_inj_left in E; [|assumption..]. tauto.
Qed.

(** For one user id, regions free of [":"] are enough. *)
Lemma subKey_inj_user u r s r' s' :
  Str.nocolon r = true -> Str.nocolon r' = true ->
  subKey u r s = subKey u r' s' -> r = r' /\ s = s'.
Proof.
  intros Hr Hr' E. rewrite !subKey_sep in E.
  apply Str.append_cancel_l in E. inversion E as [E'].
  apply Str.sep_inj_left in E'; assumption.
Qed.

Lemma subKey_inj_source u r s s' : subKey u r s = subKey u r s' -> s = s'.
Proof.
  intros E. rewrite !subKey_sep in E.
  apply Str.append_cancel_l in E. inversion E as [E'].
  apply Str.append_cancel_l in E'. now inversion E'.
Qed.

Lemma regions_nocolon r : In r regions -> Str.nocolon r = true.
Proof.
  unfold regions. simpl.
  intros H. repeat (destruct H as [<-|H]; [reflexivity|]). destruct H.
Qed.

Lemma normalizeRegion_valid r : In (normalizeRegion r) regions.
Proof.
  unfold normalizeRegion.
  destruct (existsb _ regions) eqn:E.
  - apply existsb_exists in E. destruct E as [x [Hx E]].
    apply String.eqb_eq in E. now rewrite E.
  - simpl. auto.
Qed.

(** What the worker handlers read back from a composite string whose user
    id and region are free of [":"]. *)
Lemma parseSub_subKey u r s :
  Str.nocolon u = true -> Str.nocolon r = true ->
  parseSub (subKey u r s) = (Some u, Some r, nth_error (Str.split s) 0).
Proof.
  intros Hu Hr. unfold parseSub. rewrite subKey_sep.
  rewrite Str.split_sep by auto. rewrite Str.split_sep by auto.
  reflexivity.
Qed.


End Keys.

(** ** The forward index and the central invariant *)

Module Consistency.
Import Js Db SetFacts Index Entries.

Definition forward := map string user.

(** [e] is the composite string of an item of [u] with skin id [k]. *)
Definition LiveOf (uid : string) (u : user) (k : option string) (e : string)
  : Prop :=
  exists it, In it (items u) /\ skinId it = k /\
             e = subKey uid (region u) (source it).

(** [e] is the composite string of an item of some user. *)
Definition Live (wl : forward) (k : option string) (e : string) : Prop :=
  exists uid u, wget uid wl = Some u /\ LiveOf uid u k e.

(** ... of some user other than [uid]. *)
Definition LiveBut (uid : string) (wl : forward) (k : option string)
  (e : string) : Prop :=
  exists uid' u', uid' <> uid /\ wget uid' wl = Some u' /\ LiveOf uid' u' k e.

Lemma wget_wset_same uid u (wl : forward) : wget uid (wset uid u wl) = Some u.
Proof. apply mget_mset_same, String.eqb_spec. Qed.

Lemma wget_wset_other uid uid' u (wl : forward) :
  uid' <> uid -> wget uid' (wset uid u wl) = wget uid' wl.
Proof. apply mget_mset_other, String.eqb_spec. Qed.

Lemma Live_wset uid u wl k e :
  Live (wset uid u wl) k e <-> LiveOf uid u k e \/ LiveBut uid wl k e.
Proof.
  split.
  - intros [uid' [u' [G L]]]. destruct (string_dec uid' uid) as [->|N].
    + rewrite wget_wset_same in G. inversion G; subst. now left.
    + rewrite wget_wset_other in G by auto. right. exists uid', u'. auto.
  - intros [L|[uid' [u' [N [G L]]]]].
    + exists uid, u. split; auto. apply wget_wset_same.
    + exists uid', u'. split; auto. now rewrite wget_wset_other.
Qed.

Lemma Live_known uid u wl k e :
  wget uid wl = Some u ->
  (Live wl k e <-> LiveOf uid u k e \/ LiveBut uid wl k e).
Proof.
  intros G. rewrite <- Live_wset.
  rewrite mset_same_value; [tauto | apply String.eqb_spec | exact G].
Qed.

Lemma Live_unknown uid wl k e :
  wget uid wl = None -> (Live wl k e <-> LiveBut uid wl k e).
Proof.
  intros G. split.
  - intros [uid' [u' [G' L]]]. exists uid', u'. repeat split; auto.
    intros ->. congruence.
  - intros [uid' [u' [N [G' L]]]]. exists uid', u'. auto.
Qed.

(** The reverse index holds the composite strings of the items, no other. *)
Definition Mirror (d : db) : Prop :=
  forall k e, InB (skinSubscriptions d) k e <-> Live (wishlist d) k e.



Lemma Mirror_empty : Mirror empty.
Proof.
  intros k e. split.
  - intros [].
  - intros [uid [u [G _]]]. discriminate.
Qed.

(** A property of every stored user record. *)
Definition AllUsers (P : string -> user -> Prop) (wl : forward) : Prop :=
  forall uid u, wget uid wl = Some u -> P uid u.

Lemma AllUsers_wset (P : string -> user -> Prop) uid u wl :
  AllUsers P wl -> P uid u -> AllUsers P (wset uid u wl).
Proof.
  intros H Hu uid' u' G. destruct (string_dec uid' uid) as [->|N].
  - rewrite wget_wset_same in G. inversion G; subst. auto.
  - rewrite wget_wset_other in G by auto. eauto.
Qed.

(** The pairs (skin id, source) of a list of items. *)
Definition pairs (l : list item) : list (option string * string) :=
  List.map (fun i => (skinId i, source i)) l.

End Consistency.

(** ** How the updates of the two indexes fit together *)

Module Preserve.
Import Js Db SetFacts Index Entries Consistency.

(** Registration under an id that is not in use. *)
Lemma Mirror_register d uuid rgn now :
  Mirror d ->
  wget (generateAnonUserId uuid) (wishlist d) = None ->
  Mirror (fst (registerUser d uuid rgn now)).
Proof.
  intros M G k e. simpl. rewrite Live_wset, (M k e), (Live_unknown _ _ k e G).
  split; [auto | intros [[it [[] _]]|H]; auto].
Qed.

(** Pushing an item and adding its composite string. *)
Lemma Mirror_push d uid u0 it c t :
  Mirror d ->
  (forall k e, Live (wishlist d) k e <->
               LiveOf uid u0 k e \/ LiveBut uid (wishlist d) k e) ->
  Mirror (mkDb (wset uid (mkUser (region u0) (items u0 ++ [it]) c t)
                  (wishlist d))
               (ensureAdd (skinId it) (subKey uid (region u0) (source it))
                  (skinSubscriptions d))).
Proof.
  intros M L k e. simpl. rewrite InB_ensureAdd, Live_wset, (M k e), (L k e).
  unfold LiveOf at 2. simpl. split.
  - intros [[[i [Hi E]]|H]|[-> ->]]; auto.
    + left. exists i. rewrite in_app_iff. tauto.
    + left. exists it. rewrite in_app_iff. simpl. tauto.
  - intros [[i [Hi [Ek Ee]]]|H]; auto.
    apply in_app_iff in Hi. destruct Hi as [Hi|[<-|[]]]; auto.
    left. left. exists i. auto.
Qed.

Lemma sameItem_true skin src i :
  sameItem skin src i = true <-> skinId i = skin /\ source i = src.
Proof.
  unfold sameItem. rewrite andb_true_iff, oeqb_eq, String.eqb_eq. tauto.
Qed.

Lemma In_kept skin src l i :
  In i (filter (fun i => negb (sameItem skin src i)) l) <->
  In i l /\ ~ (skinId i = skin /\ source i = src).
Proof.
  rewrite filter_In, negb_true_iff, <- sameItem_true.
  destruct (sameItem skin src i); intuition congruence.
Qed.

(** Filtering the items and deleting the composite string, when no other
    user's string is the deleted one. *)
Lemma Mirror_remove d uid u skin src c t :
  Mirror d ->
  wget uid (wishlist d) = Some u ->
  (forall e, LiveBut uid (wishlist d) (Some skin) e ->
             e <> subKey uid (region u) src) ->
  Mirror (mkDb (wset uid
                  (mkUser (region u)
                     (filter (fun i => negb (sameItem (Some skin) src i))
                        (items u)) c t)
                  (wishlist d))
               (deletePrune (Some skin) (subKey uid (region u) src)
                  (skinSubscriptions d))).
Proof.
  intros M G Sep k e. simpl.
  rewrite InB_deletePrune, Live_wset, (M k e), (Live_known _ _ _ k e G).
  unfold LiveOf at 2. simpl. split.
  - intros [[[i [Hi [Ek Ee]]]|H] N]; auto.
    left. exists i. rewrite In_kept. repeat split; auto.
    intros [E1 E2]. apply N. split; congruence.
  - intros [[i [Hi [Ek Ee]]]|H].
    + apply In_kept in Hi. destruct Hi as [Hi N]. split.
      * left. exists i. auto.
      * intros [E1 E2]. apply N. split; [congruence|].
        subst e. now apply Keys.subKey_inj_source in E2.
    + split; auto. intros [-> E]. now apply (Sep e).
Qed.

(** In a list of items with distinct (skin id, source) pairs, the string a
    region change adds for one item is not the one it deletes for a later
    item. *)
Lemma NoClash_items uid oldR newR l :
  Str.nocolon oldR = true -> Str.nocolon newR = true ->
  NoDup (pairs l) ->
  NoClash skinId (fun i => subKey uid oldR (source i))
          (fun i => subKey uid newR (source i)) l.
Proof.
  intros Ho Hn. induction l as [|a r IH]; simpl; auto.
  intros H. inversion H as [|? ? Hin Hr]; subst. split; auto.
  intros b Hb [Ek Ee]. apply Hin.
  apply Keys.subKey_inj_user in Ee; auto. destruct Ee as [_ Es].
  unfold pairs. apply in_map_iff. exists b. split; auto. congruence.
Qed.

(** The region change: the record takes the new region and the loop [f]
    replaces, item by item, the string with the old region by the one with
    the new region. *)
Section Relocate.
Variables (uid newR : string) (u : user).
Variable f : index -> item -> index.
Hypothesis f_moves : forall subs a,
  bget (skinId a) subs <> None ->
  forall k e, InB (f subs a) k e <->
    (InB subs k e /\
     ~ (k = skinId a /\ e = subKey uid (region u) (source a))) \/
    (k = skinId a /\ e = subKey uid newR (source a)).
Hypothesis f_keeps : forall subs a k,
  bget k subs <> None -> bget k (f subs a) <> None.

Lemma Mirror_relocate d c t :
  Mirror d ->
  wget uid (wishlist d) = Some u ->
  NoDup (pairs (items u)) ->
  Str.nocolon (region u) = true -> Str.nocolon newR = true ->
  (forall k e, LiveBut uid (wishlist d) k e -> ~ LiveOf uid u k e) ->
  Mirror (mkDb (wset uid (mkUser newR (items u) c t) (wishlist d))
               (fold_left f (items u) (skinSubscriptions d))).
Proof.
  intros M G Hp Ho Hn Sep k e. simpl.
  rewrite (fold_moves skinId _ _ f f_moves f_keeps).
  - rewrite Live_wset, (M k e), (Live_known _ _ _ k e G).
    assert (Old : (exists a, In a (items u) /\ k = skinId a /\
                     e = subKey uid (region u) (source a)) <->
                  LiveOf uid u k e).
    { unfold LiveOf. split; intros [a [Ha [E1 E2]]]; exists a; auto. }
    assert (New : (exists a, In a (items u) /\ k = skinId a /\
                     e = subKey uid newR (source a)) <->
                  LiveOf uid (mkUser newR (items u) c t) k e).
    { unfold LiveOf. simpl.
      split; intros [a [Ha [E1 E2]]]; exists a; auto. }
    rewrite Old, New. specialize (Sep k e). tauto.
  - intros a Ha.
    assert (L : Live (wishlist d) (skinId a)
                  (subKey uid (region u) (source a))).
    { exists uid, u. split; auto. exists a. auto. }
    apply M, InB_bget in L. destruct L as [s [E _]]. congruence.
  - now apply NoClash_items.
Qed.

End Relocate.

End Preserve.

(** ** Request histories *)

Module History.
Import Js Db.

(** The four mutating operations, with the data a request carries. *)
Inductive request :=
| Register (uuid : string) (rgn : option string)
| SetRegion (uid : string) (rgn : option string)
| AddItem (uid : string) (skin skinNm src : option string)
| RemoveItem (uid skin : string) (src : option string).

(** A request and the clock reading of its handler. *)
Definition call : Type := timestamp * request.

(** Registration draws an id that is not in use. *)
Definition fresh (d : db) (r : request) : bool :=
  match r with
  | Register uuid _ =>
      negb (mhas String.eqb (generateAnonUserId uuid) (wishlist d))
  | _ => true
  end.

(** The user id under which a request may create a record has no [":"]. *)
Definition cleanId (r : request) : bool :=
  match r with
  | Register uuid _ => Str.nocolon (generateAnonUserId uuid)
  | AddItem uid _ _ _ => Str.nocolon uid
  | _ => true
  end.

Section Runs.
Variable step : db -> call -> db.

Definition run (h : list call) : db := fold_left step h empty.

(** Every registration of the history, run from [d], is fresh. *)
Fixpoint allFresh (d : db) (h : list call) : bool :=
  match h with
  | [] => true
  | c :: r => fresh d (snd c) && allFresh (step d c) r
  end.

(** A property that holds of the empty store and that every fresh step
    keeps holds after every history of fresh registrations. *)
Lemma run_invariant (P : db -> Prop) (ok : request -> bool) :
  P empty ->
  (forall d c, P d -> fresh d (snd c) = true -> ok (snd c) = true ->
               P (step d c)) ->
  forall h, allFresh empty h = true ->
            forallb (fun c => ok (snd c)) h = true -> P (run h).
Proof.
  intros H0 Hs h. unfold run. generalize empty H0.
  induction h as [|c r IH]; simpl; intros d Hd Hf Ho; auto.
  apply andb_true_iff in Hf, Ho. destruct Hf, Ho. apply IH; auto.
Qed.

(** A property every step keeps holds after every history. *)
Lemma run_always (P : db -> Prop) :
  P empty -> (forall d c, P d -> P (step d c)) -> forall h, P (run h).
Proof.
  intros H0 Hs h. unfold run. generalize empty H0.
  induction h as [|c r IH]; simpl; intros d Hd; auto.
Qed.

End Runs.

End History.

(** ** Facts about stored items that both files share *)

Module Items.
Import Js Db SetFacts Index Entries Consistency Preserve.

Lemma db_eta d : mkDb (wishlist d) (skinSubscriptions d) = d.
Proof. now destruct d. Qed.

Lemma user_eta u : mkUser (region u) (items u) (createdAt u) (updatedAt u) = u.
Proof. now destruct u. Qed.

Lemma existsb_sameItem_false skin src l :
  existsb (sameItem skin src) l = false <-> ~ In (skin, src) (pairs l).
Proof.
  unfold pairs. rewrite in_map_iff. split.
  - intros E [i [Ei Hi]]. inversion Ei; subst.
    assert (T : existsb (sameItem (skinId i) (source i)) l = true).
    { apply existsb_exists. exists i. split; auto. now apply sameItem_true. }
    congruence.
  - intros N. destruct (existsb _ l) eqn:E; auto.
    apply existsb_exists in E. destruct E as [i [Hi E]].
    apply sameItem_true in E. destruct E as [<- <-].
    exfalso. apply N. exists i. auto.
Qed.

Lemma pairs_push l it :
  NoDup (pairs l) ->
  existsb (sameItem (skinId it) (source it)) l = false ->
  NoDup (pairs (l ++ [it])).
Proof.
  intros H E. apply existsb_sameItem_false in E.
  unfold pairs in *. rewrite map_app. simpl.
  apply NoDup_app; auto.
  - repeat constructor; simpl; tauto.
  - intros x Hx [<-|[]]. auto.
Qed.

Lemma pairs_filter (p : item -> bool) l :
  NoDup (pairs l) -> NoDup (pairs (filter p l)).
Proof.
  unfold pairs. induction l as [|a r IH]; simpl; auto.
  intros H. inversion H as [|? ? Hn Hr]; subst.
  destruct (p a); simpl; auto.
  constructor; auto.
  intros Hi. apply Hn. apply in_map_iff in Hi. destruct Hi as [i [E Hi]].
  apply filter_In in Hi. apply in_map_iff. exists i. tauto.
Qed.

(** A filter that removes nothing returns the list itself. *)
Lemma filter_same_length {A : Type} (p : A -> bool) l :
  length (filter p l) = length l -> filter p l = l.
Proof.
  induction l as [|a r IH]; simpl; auto.
  destruct (p a); simpl; intros H.
  - f_equal. apply IH. lia.
  - pose proof (filter_length_le p r). lia.
Qed.

(** The record an add handler works on: the stored one, or the one it
    creates for an unseen user id. *)
Definition userOr (d : db) (uid : string) (now : timestamp) : user :=
  match wget uid (wishlist d) with
  | Some u => u
  | None => newUser "EU" now
  end.

Lemma Live_userOr d uid now k e :
  Live (wishlist d) k e <->
  LiveOf uid (userOr d uid now) k e \/ LiveBut uid (wishlist d) k e.
Proof.
  unfold userOr. destruct (wget uid (wishlist d)) as [u|] eqn:G.
  - apply Live_known, G.
  - rewrite (Live_unknown _ _ k e G). split; auto.
    intros [[it [[] _]]|H]. exact H.
Qed.

End Items.

(** ** [src/unnamed/part_000]: the invariant *)

Module Part000Facts.
Import Js Db SetFacts Index Entries Consistency Preserve Items History.
Import Part000.

(** One request against the second file's handlers. *)
Definition step (d : db) (c : call) : db :=
  match snd c with
  | Register uuid rgn => fst (registerUser d uuid rgn (fst c))
  | SetRegion uid rgn => fst (setUserRegion d uid rgn (fst c))
  | AddItem uid skin nm src => fst (addItem d uid skin nm src (fst c))
  | RemoveItem uid skin src => fst (removeItem d uid skin src (fst c))
  end.

(** What holds of every stored record: distinct (skin id, source) pairs, a
    region of the list, sources of the list. *)
Definition UserOK (u : user) : Prop :=
  NoDup (pairs (items u)) /\ In (region u) regions /\
  Forall (fun i => In (source i) validSources) (items u).

Record Good (d : db) : Prop := {
  g_mirror : Mirror d;
  g_wf : WF (skinSubscriptions d);
  g_users : AllUsers (fun _ => UserOK) (wishlist d)
}.

Lemma normalizedSource_valid src : In (normalizedSource src) validSources.
Proof.
  unfold normalizedSource. destruct (existsb _ validSources) eqn:E.
  - apply existsb_exists in E. destruct E as [x [Hx E]].
    apply String.eqb_eq in E. now rewrite E.
  - simpl. auto.
Qed.

Lemma validSources_nocolon s : In s validSources -> Str.nocolon s = true.
Proof.
  unfold validSources. simpl.
  intros H. repeat (destruct H as [<-|H]; [reflexivity|]). destruct H.
Qed.

(** Two users never share a composite string: regions and sources have no
    [":"], so the string is read back from its end. *)
Lemma others_apart_part000 wl uid r s k e :
  AllUsers (fun _ => UserOK) wl ->
  Str.nocolon r = true -> Str.nocolon s = true ->
  LiveBut uid wl k e -> e <> subKey uid r s.
Proof.
  intros HU Hr Hs [uid' [u' [N [G [it [Hi [Ek Ee]]]]]]] E.
  destruct (HU _ _ G) as [_ [Hreg Hsrc]].
  rewrite Forall_forall in Hsrc. rewrite Ee in E.
  apply Keys.subKey_inj_right in E; auto.
  - tauto.
  - now apply Keys.regions_nocolon.
  - apply validSources_nocolon. auto.
Qed.

Lemma addItem_existing_part000 d uid u skin nm src now :
  wget uid (wishlist d) = Some u ->
  existsb (sameItem skin (normalizedSource src)) (items u) = true ->
  addItem d uid skin nm src now =
  (d, AlreadyInWishlist
        (generateTopic (Some (region u)) (Some (normalizedSource src)) skin)).
Proof.
  intros G E. unfold addItem. rewrite G, E. now rewrite db_eta.
Qed.

Lemma addItem_new_part000 d uid skin nm src now :
  existsb (sameItem skin (normalizedSource src))
    (items (userOr d uid now)) = false ->
  addItem d uid skin nm src now =
  (let u0 := userOr d uid now in
   let newItem :=
     mkItem skin (orElse nm "Unknown Skin") (normalizedSource src) now in
   (mkDb (wset uid (mkUser (region u0) (items u0 ++ [newItem])
                      (createdAt u0) now) (wishlist d))
         (ensureAdd skin (subKey uid (region u0) (normalizedSource src))
            (skinSubscriptions d)),
    Added newItem
      (generateTopic (Some (region u0)) (Some (normalizedSource src)) skin))).
Proof.
  unfold addItem, userOr. destruct (wget uid (wishlist d)) as [u|] eqn:G.
  - intros E. now rewrite E.
  - intros _. simpl. rewrite mset_mset by apply String.eqb_spec. reflexivity.
Qed.

Lemma addItem_cases_part000 d uid skin src now :
  (exists u, wget uid (wishlist d) = Some u /\
             existsb (sameItem skin (normalizedSource src)) (items u) = true) \/
  existsb (sameItem skin (normalizedSource src))
    (items (userOr d uid now)) = false.
Proof.
  unfold userOr. destruct (wget uid (wishlist d)) as [u|] eqn:G.
  - destruct (existsb _ (items u)) eqn:E; eauto.
  - right. reflexivity.
Qed.

Lemma removeItem_unknown d uid skin src now :
  wget uid (wishlist d) = None ->
  removeItem d uid skin src now = (d, UserNotFound).
Proof. intros G. unfold removeItem. now rewrite G. Qed.

Lemma removeItem_absent d uid u skin src now :
  wget uid (wishlist d) = Some u ->
  existsb (sameItem (Some skin) (default src "store")) (items u) = false ->
  removeItem d uid skin src now = (d, ItemNotFound).
Proof.
  intros G E. unfold removeItem. rewrite G.
  assert (K : filter (fun i => negb (sameItem (Some skin)
                (default src "store") i)) (items u) = items u).
  { apply forallb_filter_id. apply forallb_forall. intros i Hi.
    apply negb_true_iff. destruct (sameItem _ _ i) eqn:S; auto.
    assert (T : existsb (sameItem (Some skin) (default src "store"))
                  (items u) = true) by (apply existsb_exists; eauto).
    congruence. }
  rewrite K, Nat.eqb_refl, user_eta.
  rewrite mset_same_value by (apply String.eqb_spec || exact G).
  now rewrite db_eta.
Qed.

Lemma removeItem_present d uid u skin src now :
  wget uid (wishlist d) = Some u ->
  existsb (sameItem (Some skin) (default src "store")) (items u) = true ->
  removeItem d uid skin src now =
  (let source := default src "store" in
   (mkDb (wset uid
            (mkUser (region u)
               (filter (fun i => negb (sameItem (Some skin) source i))
                  (items u)) (createdAt u) now) (wishlist d))
         (deletePrune (Some skin) (subKey uid (region u) source)
            (skinSubscriptions d)),
    Removed (generateTopic (Some (region u)) (Some source) (Some skin)))).
Proof.
  intros G E. unfold removeItem. rewrite G.
  destruct (Nat.eqb _ _) eqn:L.
  - exfalso. apply Nat.eqb_eq, filter_same_length in L.
    apply existsb_exists in E. destruct E as [i [Hi S]].
    rewrite <- L in Hi. apply filter_In in Hi. rewrite S in Hi.
    destruct Hi. discriminate.
  - simpl. rewrite mset_mset by apply String.eqb_spec. reflexivity.
Qed.

Lemma relocate_moves_part000 uid o n subs a k e :
  InB (relocate uid o n subs a) k e <->
  (InB subs k e /\ ~ (k = skinId a /\ e = subKey uid o (source a))) \/
  (k = skinId a /\ e = subKey uid n (source a)).
Proof. apply InB_delete_add. Qed.

Lemma relocate_keeps_part000 uid o n subs a k :
  bget k subs <> None -> bget k (relocate uid o n subs a) <> None.
Proof.
  unfold relocate. rewrite bget_ensureAdd.
  destruct (oeqb k (skinId a)) eqn:E; [discriminate|].
  now rewrite bget_deleteAt, E.
Qed.

Lemma UserOK_userOr_part000 d uid now :
  AllUsers (fun _ => UserOK) (wishlist d) -> UserOK (userOr d uid now).
Proof.
  intros HU. unfold userOr. destruct (wget uid (wishlist d)) eqn:G.
  - eapply HU; eauto.
  - repeat split; simpl; auto; constructor.
Qed.

Lemma Good_empty_part000 : Good empty.
Proof.
  constructor.
  - apply Mirror_empty.
  - apply WF_empty.
  - intros uid u G. discriminate.
Qed.

Lemma Good_register_part000 d uuid rgn now :
  Good d -> fresh d (Register uuid rgn) = true ->
  Good (fst (registerUser d uuid rgn now)).
Proof.
  intros [M W U] F. simpl in F. unfold mhas in F.
  destruct (wget (generateAnonUserId uuid) (wishlist d)) eqn:G;
    [discriminate|].
  constructor.
  - now apply Mirror_register.
  - exact W.
  - simpl. apply AllUsers_wset; auto.
    split; [constructor | split; [apply Keys.normalizeRegion_valid|]].
    constructor.
Qed.

Lemma Good_setUserRegion_part000 d uid rgn now :
  Good d -> Good (fst (setUserRegion d uid rgn now)).
Proof.
  intros [M W U]. unfold setUserRegion.
  destruct (wget uid (wishlist d)) as [u|] eqn:G; simpl.
  - destruct (U _ _ G) as [Hp [Hr Hs]].
    constructor; simpl.
    + apply Mirror_relocate; auto.
      * intros subs a _. apply relocate_moves_part000.
      * apply relocate_keeps_part000.
      * now apply Keys.regions_nocolon.
      * apply Keys.regions_nocolon, Keys.normalizeRegion_valid.
      * intros k e L [it [Hi [_ Ee]]]. revert Ee.
        eapply others_apart_part000; eauto.
        -- now apply Keys.regions_nocolon.
        -- apply validSources_nocolon.
           rewrite Forall_forall in Hs. auto.
    + apply fold_WF; auto. intros subs a. apply WF_delete_add.
    + apply AllUsers_wset; auto. repeat split; auto.
      apply Keys.normalizeRegion_valid.
  - now constructor.
Qed.

Lemma Good_addItem_part000 d uid skin nm src now :
  Good d -> Good (fst (addItem d uid skin nm src now)).
Proof.
  intros [M W U].
  destruct (addItem_cases_part000 d uid skin src now) as [[u [G E]]|E].
  - rewrite (addItem_existing_part000 _ _ _ _ nm _ now G E). now constructor.
  - rewrite (addItem_new_part000 _ _ _ nm _ _ E). cbv zeta. simpl.
    destruct (UserOK_userOr_part000 d uid now U) as [Hp [Hr Hs]].
    constructor; simpl.
    + apply (Mirror_push d uid (userOr d uid now)
               (mkItem skin (orElse nm "Unknown Skin")
                  (normalizedSource src) now)); auto.
      intros k e. apply Live_userOr.
    + now apply WF_ensureAdd.
    + apply AllUsers_wset; auto. repeat split; simpl; auto.
      * apply pairs_push; auto.
      * apply Forall_app. split; auto.
        constructor; [apply normalizedSource_valid | constructor].
Qed.

Lemma Good_removeItem_part000 d uid skin src now :
  Good d -> Good (fst (removeItem d uid skin src now)).
Proof.
  intros [M W U].
  destruct (wget uid (wishlist d)) as [u|] eqn:G.
  - destruct (existsb (sameItem (Some skin) (default src "store")) (items u))
      eqn:E.
    + rewrite (removeItem_present _ _ _ _ _ now G E). cbv zeta. simpl.
      destruct (U _ _ G) as [Hp [Hr Hs]].
      constructor; simpl.
      * apply Mirror_remove; auto.
        intros e L. eapply others_apart_part000; eauto.
        -- now apply Keys.regions_nocolon.
        -- apply existsb_exists in E. destruct E as [i [Hi S]].
           apply sameItem_true in S. destruct S as [_ <-].
           apply validSources_nocolon.
           rewrite Forall_forall in Hs. auto.
      * now apply WF_deletePrune.
      * apply AllUsers_wset; auto. repeat split; simpl; auto.
        -- now apply pairs_filter.
        -- rewrite Forall_forall in *. intros i Hi.
           apply filter_In in Hi. apply Hs, Hi.
    + rewrite (removeItem_absent _ _ _ _ _ now G E). now constructor.
  - rewrite removeItem_unknown by auto. now constructor.
Qed.

Lemma Good_step_part000 d c :
  Good d -> fresh d (snd c) = true -> Good (step d c).
Proof.
  intros H F. unfold step. destruct c as [now [uuid r|uid r|uid k n s|uid k s]];
    simpl in *.
  - now apply Good_register_part000.
  - now apply Good_setUserRegion_part000.
  - now apply Good_addItem_part000.
  - now apply Good_removeItem_part000.
Qed.

(** After every history whose registrations are fresh the store is good. *)
Lemma Good_run_part000 h : allFresh step empty h = true -> Good (run step h).
Proof.
  intros F.
  apply (run_invariant step Good (fun _ => true)); auto.
  - apply Good_empty_part000.
  - intros d c H Fc _. now apply Good_step_part000.
  - apply forallb_forall. auto.
Qed.

(** The representation invariant of the reverse index needs no assumption
    on the history. *)
Lemma WF_step_part000 d c : WF (skinSubscriptions d) -> WF (skinSubscriptions (step d c)).
Proof.
  intros W. unfold step.
  destruct c as [now [uuid r|uid r|uid k n s|uid k s]]; simpl.
  - exact W.
  - unfold setUserRegion. destruct (wget uid (wishlist d)); simpl; auto.
    apply fold_WF; auto. intros subs a. apply WF_delete_add.
  - destruct (addItem_cases_part000 d uid k s now) as [[u [G E]]|E].
    + now rewrite (addItem_existing_part000 _ _ _ _ n _ now G E).
    + rewrite (addItem_new_part000 _ _ _ n _ _ E). simpl. now apply WF_ensureAdd.
  - unfold removeItem. destruct (wget uid (wishlist d)); simpl; auto.
    destruct (Nat.eqb _ _); simpl; auto. now apply WF_deletePrune.
Qed.

Lemma WF_run_part000 h : WF (skinSubscriptions (run step h)).
Proof.
  apply (run_always step (fun d => WF (skinSubscriptions d))).
  - apply WF_empty.
  - intros d c. apply WF_step_part000.
Qed.

End Part000Facts.

(** ** [src/server.js]: the invariant *)

Module ServerFacts.
Import Js Db SetFacts Index Entries Consistency Preserve Items History.
Import Server.

(** One request against the handlers of [server.js]. *)
Definition step (d : db) (c : call) : db :=
  match snd c with
  | Register uuid rgn => fst (registerUser d uuid rgn (fst c))
  | SetRegion uid rgn => fst (setUserRegion d uid rgn (fst c))
  | AddItem uid skin nm src => fst (addItem d uid skin nm src (fst c))
  | RemoveItem uid skin src => fst (removeItem d uid skin src)
  end.

(** What holds of every stored record when user ids have no [":"]: distinct
    (skin id, source) pairs and a region of the list.  The sources are the
    strings the clients sent. *)
Definition UserOK (uid : string) (u : user) : Prop :=
  Str.nocolon uid = true /\ NoDup (pairs (items u)) /\ In (region u) regions.

Record Good (d : db) : Prop := {
  g_mirror : Mirror d;
  g_wf : WF (skinSubscriptions d);
  g_users : AllUsers UserOK (wishlist d)
}.

(** Two users never share a composite string: user ids and regions have no
    [":"], so the string is read back from its start. *)
Lemma others_apart_server wl uid r s k e :
  AllUsers UserOK wl ->
  Str.nocolon uid = true -> Str.nocolon r = true ->
  LiveBut uid wl k e -> e <> subKey uid r s.
Proof.
  intros HU Hu Hr [uid' [u' [N [G [it [Hi [Ek Ee]]]]]]] E.
  destruct (HU _ _ G) as [Hid [_ Hreg]].
  rewrite Ee in E. apply Keys.subKey_inj_left in E; auto.
  - tauto.
  - now apply Keys.regions_nocolon.
Qed.

Lemma addItem_rejected d uid skin nm src now :
  falsy skin = true -> addItem d uid skin nm src now = (d, SkinIdRequired).
Proof. intros F. unfold addItem. now rewrite F. Qed.

Lemma addItem_existing_server d uid u skin nm src now :
  falsy skin = false ->
  wget uid (wishlist d) = Some u ->
  existsb (sameItem skin (default src "store")) (items u) = true ->
  addItem d uid skin nm src now =
  (d, AddOk (generateTopic (Some (region u)) (Some (default src "store")) skin)).
Proof.
  intros F G E. unfold addItem. rewrite F, G, E. now rewrite db_eta.
Qed.

Lemma addItem_new_server d uid skin nm src now :
  falsy skin = false ->
  existsb (sameItem skin (default src "store"))
    (items (userOr d uid now)) = false ->
  addItem d uid skin nm src now =
  (let u0 := userOr d uid now in
   let source := default src "store" in
   (mkDb (wset uid (mkUser (region u0)
                      (items u0 ++ [mkItem skin (orElse nm "Unknown") source now])
                      (createdAt u0) (updatedAt u0)) (wishlist d))
         (ensureAdd skin (subKey uid (region u0) source)
            (skinSubscriptions d)),
    AddOk (generateTopic (Some (region u0)) (Some source) skin))).
Proof.
  intros F. unfold addItem, userOr. rewrite F.
  destruct (wget uid (wishlist d)) as [u|] eqn:G.
  - intros E. now rewrite E.
  - intros _. simpl. rewrite mset_mset by apply String.eqb_spec. reflexivity.
Qed.

Lemma addItem_cases_server d uid skin src now :
  (exists u, wget uid (wishlist d) = Some u /\
             existsb (sameItem skin (default src "store")) (items u) = true) \/
  existsb (sameItem skin (default src "store"))
    (items (userOr d uid now)) = false.
Proof.
  unfold userOr. destruct (wget uid (wishlist d)) as [u|] eqn:G.
  - destruct (existsb _ (items u)) eqn:E; eauto.
  - right. reflexivity.
Qed.

Lemma relocate_moves_server uid o n subs a :
  bget (skinId a) subs <> None ->
  forall k e, InB (relocate uid o n subs a) k e <->
  (InB subs k e /\ ~ (k = skinId a /\ e = subKey uid o (source a))) \/
  (k = skinId a /\ e = subKey uid n (source a)).
Proof. intros H k e. now apply InB_replaceAt. Qed.

Lemma relocate_keeps_server uid o n subs a k :
  bget k subs <> None -> bget k (relocate uid o n subs a) <> None.
Proof.
  unfold relocate. rewrite bget_replaceAt.
  destruct (oeqb_spec k (skinId a)) as [->|N]; auto.
  destruct (bget (skinId a) subs); simpl; congruence.
Qed.

Lemma UserOK_userOr_server d uid now :
  Str.nocolon uid = true ->
  AllUsers UserOK (wishlist d) -> UserOK uid (userOr d uid now).
Proof.
  intros Hu HU. unfold userOr. destruct (wget uid (wishlist d)) eqn:G.
  - eapply HU; eauto.
  - split; [auto | split; [constructor | simpl; auto]].
Qed.

Lemma Good_empty_server : Good empty.
Proof.
  constructor.
  - apply Mirror_empty.
  - apply WF_empty.
  - intros uid u G. discriminate.
Qed.

Lemma Good_register_server d uuid rgn now :
  Good d -> fresh d (Register uuid rgn) = true ->
  cleanId (Register uuid rgn) = true ->
  Good (fst (registerUser d uuid rgn now)).
Proof.
  intros [M W U] F C. simpl in F, C. unfold mhas in F.
  destruct (wget (generateAnonUserId uuid) (wishlist d)) eqn:G;
    [discriminate|].
  constructor.
  - now apply Mirror_register.
  - exact W.
  - simpl. apply AllUsers_wset; auto.
    split; [auto | split; [constructor | apply Keys.normalizeRegion_valid]].
Qed.

Lemma Good_setUserRegion_server d uid rgn now :
  Good d -> Good (fst (setUserRegion d uid rgn now)).
Proof.
  intros [M W U]. unfold setUserRegion.
  destruct (wget uid (wishlist d)) as [u|] eqn:G; simpl.
  - destruct (U _ _ G) as [Hu [Hp Hr]].
    constructor; simpl.
    + apply Mirror_relocate; auto.
      * apply relocate_moves_server.
      * apply relocate_keeps_server.
      * now apply Keys.regions_nocolon.
      * apply Keys.regions_nocolon, Keys.normalizeRegion_valid.
      * intros k e L [it [Hi [_ Ee]]]. revert Ee.
        eapply others_apart_server; eauto. now apply Keys.regions_nocolon.
    + apply fold_WF; auto. intros subs a. apply WF_replaceAt.
    + apply AllUsers_wset; auto.
      split; [auto | split; [auto | apply Keys.normalizeRegion_valid]].
  - now constructor.
Qed.

Lemma Good_addItem_server d uid skin nm src now :
  Good d -> Str.nocolon uid = true ->
  Good (fst (addItem d uid skin nm src now)).
Proof.
  intros [M W U] Hu.
  destruct (falsy skin) eqn:F.
  { rewrite addItem_rejected by auto. now constructor. }
  destruct (addItem_cases_server d uid skin src now) as [[u [G E]]|E].
  - rewrite (addItem_existing_server _ _ _ _ nm _ now F G E). now constructor.
  - rewrite (addItem_new_server _ _ _ nm _ _ F E). cbv zeta. simpl.
    destruct (UserOK_userOr_server d uid now Hu U) as [_ [Hp Hr]].
    constructor; simpl.
    + apply (Mirror_push d uid (userOr d uid now)
               (mkItem skin (orElse nm "Unknown") (default src "store") now));
        auto.
      intros k e. apply Live_userOr.
    + now apply WF_ensureAdd.
    + apply AllUsers_wset; auto.
      split; [auto | split; [|auto]]. simpl. apply pairs_push; auto.
Qed.

Lemma Good_removeItem_server d uid skin src :
  Good d -> Good (fst (removeItem d uid skin src)).
Proof.
  intros [M W U]. unfold removeItem.
  destruct (wget uid (wishlist d)) as [u|] eqn:G; simpl.
  - destruct (U _ _ G) as [Hu [Hp Hr]].
    constructor; simpl.
    + apply Mirror_remove; auto.
      intros e L. eapply others_apart_server; eauto.
      now apply Keys.regions_nocolon.
    + now apply WF_deletePrune.
    + apply AllUsers_wset; auto.
      split; [auto | split; [|auto]]. simpl. now apply pairs_filter.
  - now constructor.
Qed.

Lemma Good_step_server d c :
  Good d -> fresh d (snd c) = true -> cleanId (snd c) = true ->
  Good (step d c).
Proof.
  intros H F C. unfold step.
  destruct c as [now [uuid r|uid r|uid k n s|uid k s]]; simpl in *.
  - now apply Good_register_server.
  - now apply Good_setUserRegion_server.
  - now apply Good_addItem_server.
  - now apply Good_removeItem_server.
Qed.


(** The representation invariant of the reverse index needs no assumption
    on the history. *)
Lemma WF_step_server d c : WF (skinSubscriptions d) -> WF (skinSubscriptions (step d c)).
Proof.
  intros W. unfold step.
  destruct c as [now [uuid r|uid r|uid k n s|uid k s]]; simpl.
  - exact W.
  - unfold setUserRegion. destruct (wget uid (wishlist d)); simpl; auto.
    apply fold_WF; auto. intros subs a. apply WF_replaceAt.
  - destruct (falsy k) eqn:F.
    { now rewrite addItem_rejected. }
    destruct (addItem_cases_server d uid k s now) as [[u [G E]]|E].
    + now rewrite (addItem_existing_server _ _ _ _ n _ now F G E).
    + rewrite (addItem_new_server _ _ _ n _ _ F E). simpl. now apply WF_ensureAdd.
  - unfold removeItem. destruct (wget uid (wishlist d)); simpl; auto.
    now apply WF_deletePrune.
Qed.

Lemma WF_run_server h : WF (skinSubscriptions (run step h)).
Proof.
  apply (run_always step (fun d => WF (skinSubscriptions d))).
  - apply WF_empty.
  - intros d c. apply WF_step_server.
Qed.

End ServerFacts.

(** ** What the worker query reads back *)

Module Worker.
Import Js Db SetFacts Index Entries Consistency.







End Worker.

(** ** Histories whose user ids have no separator *)

Module Ids.
Import Js Db SetFacts Index Entries Consistency Preserve Items History Worker.





End Ids.

(** ** The aggregation of the active skins *)

Module Active.
Import Js Db SetFacts Index Entries.

Definition activeMap := map (option string) (list (option string)).

(** The second and third part of a split composite string. *)
Definition regionOf (sub : string) : option string := snd (fst (parseSub sub)).
Definition sourceOf (sub : string) : option string := snd (parseSub sub).

(** The body of the inner loop of both handlers, for a test [pass] on the
    composite string. *)
Definition collectIf (pass : string -> bool) (skin : option string)
  (acc : activeMap) (sub : string) : activeMap :=
  if pass sub then
    let acc1 := if mhas oeqb skin acc then acc else mset oeqb skin [] acc in
    match mget oeqb skin acc1 with
    | Some regs => mset oeqb skin (addRegion (regionOf sub) regs) acc1
    | None => acc1
    end
  else acc.

(** The test of the second file: no filter, or the third part is the
    filter. *)
Definition passes (src : option string) (sub : string) : bool :=
  falsy src || oeqb (sourceOf sub) src.

(** [parseSub] builds its triple from the parts, so both handlers' loop
    bodies are instances of [collectIf] by computation. *)
Lemma collect_part000 src skin acc sub :
  Part000.collect src skin acc sub = collectIf (passes src) skin acc sub.
Proof. reflexivity. Qed.

Lemma collect_server skin acc sub :
  Server.collect skin acc sub = collectIf (fun _ => true) skin acc sub.
Proof. reflexivity. Qed.

(** [r] is among the regions collected for [k]. *)
Definition RIn (acc : activeMap) (k r : option string) : Prop :=
  exists regs, mget oeqb k acc = Some regs /\ In r regs.

(** No key twice, and every collected list duplicate-free and non-empty. *)
Definition AWF (acc : activeMap) : Prop :=
  NoDup (keys acc) /\
  forall k regs, mget oeqb k acc = Some regs -> NoDup regs /\ regs <> [].

Lemma In_addRegion r' r s : In r' (addRegion r s) <-> In r' s \/ r' = r.
Proof.
  unfold addRegion. destruct (existsb (oeqb r) s) eqn:E.
  - apply existsb_exists in E. destruct E as [x [Hx E]].
    apply oeqb_eq in E. rewrite <- E in Hx.
    split; [auto | intros [?|?]; subst; auto].
  - rewrite in_app_iff. simpl. intuition.
Qed.

Lemma NoDup_addRegion r s : NoDup s -> NoDup (addRegion r s).
Proof.
  intros H. unfold addRegion. destruct (existsb (oeqb r) s) eqn:E; auto.
  apply NoDup_app; auto.
  - repeat constructor; simpl; tauto.
  - intros x Hx [Ex|[]]. subst x.
    assert (T : existsb (oeqb r) s = true).
    { apply existsb_exists. exists r. split; auto. apply oeqb_refl. }
    congruence.
Qed.

Lemma addRegion_nonempty r s : addRegion r s <> [].
Proof.
  intros E. assert (H : In r (addRegion r s)) by (apply In_addRegion; auto).
  rewrite E in H. inversion H.
Qed.

Lemma mget_collectIf pass k acc sub k' :
  pass sub = true ->
  mget oeqb k' (collectIf pass k acc sub) =
  if oeqb k' k then
    Some (addRegion (regionOf sub)
            (match mget oeqb k acc with Some x => x | None => [] end))
  else mget oeqb k' acc.
Proof.
  intros P. unfold collectIf, mhas. rewrite P.
  destruct (oeqb_spec k' k) as [->|N].
  - destruct (mget oeqb k acc) as [x|] eqn:E.
    + rewrite E. apply mget_mset_same, oeqb_spec.
    + rewrite mget_mset_same, mset_mset by apply oeqb_spec.
      apply mget_mset_same, oeqb_spec.
  - destruct (mget oeqb k acc) as [x|] eqn:E.
    + rewrite E. apply mget_mset_other; [apply oeqb_spec | auto].
    + rewrite mget_mset_same by apply oeqb_spec.
      rewrite !mget_mset_other by (apply oeqb_spec || auto). reflexivity.
Qed.

Lemma keys_collectIf pass k acc sub :
  NoDup (keys acc) -> NoDup (keys (collectIf pass k acc sub)).
Proof.
  intros H. unfold collectIf. destruct (pass sub); auto. cbv zeta.
  assert (H1 : NoDup (keys (if mhas oeqb k acc then acc
                            else mset oeqb k [] acc))).
  { destruct (mhas oeqb k acc); auto.
    apply NoDup_keys_mset; auto. apply oeqb_spec. }
  destruct (mget oeqb k _); auto.
  apply NoDup_keys_mset; auto. apply oeqb_spec.
Qed.

Lemma RIn_collectIf pass k acc sub k' r :
  RIn (collectIf pass k acc sub) k' r <->
  RIn acc k' r \/ (k' = k /\ pass sub = true /\ regionOf sub = r).
Proof.
  destruct (pass sub) eqn:P.
  - unfold RIn. rewrite mget_collectIf by auto.
    destruct (oeqb_spec k' k) as [->|N].
    + split.
      * intros [regs [E H]]. inversion E; subst regs.
        apply In_addRegion in H. destruct H as [H|H]; [|subst; auto].
        destruct (mget oeqb k acc) as [x|]; [left; eauto | destruct H].
      * intros [[regs [E H]]|[_ [_ E]]].
        -- eexists. split; [reflexivity|]. apply In_addRegion. rewrite E. auto.
        -- eexists. split; [reflexivity|]. apply In_addRegion. auto.
    + intuition.
  - unfold collectIf. rewrite P. intuition. discriminate.
Qed.

Lemma AWF_collectIf pass k acc sub :
  AWF acc -> AWF (collectIf pass k acc sub).
Proof.
  intros [Hk Hs]. split; [now apply keys_collectIf|].
  destruct (pass sub) eqn:P.
  - intros k' regs. rewrite mget_collectIf by auto.
    destruct (oeqb k' k); [|apply Hs].
    intros E. inversion E. split; [|apply addRegion_nonempty].
    apply NoDup_addRegion.
    destruct (mget oeqb k acc) as [x|] eqn:G; [|constructor].
    apply (Hs _ _ G).
  - unfold collectIf. rewrite P. exact Hs.
Qed.

(** The inner loop over the set of one skin id. *)
Lemma RIn_inner pass k s : forall acc k' r,
  RIn (fold_left (collectIf pass k) s acc) k' r <->
  RIn acc k' r \/
  (k' = k /\ exists sub, In sub s /\ pass sub = true /\ regionOf sub = r).
Proof.
  induction s as [|a t IH]; simpl; intros acc k' r.
  - split; [auto | intros [H|[_ [sub [[] _]]]]; auto].
  - rewrite IH, RIn_collectIf. split.
    + intros [[H|[E [P R]]]|[E [sub [Hs H]]]]; auto.
      * right. split; auto. exists a. auto.
      * right. split; auto. exists sub. auto.
    + intros [H|[E [sub [[<-|Hs] [P R]]]]]; auto.
      right. split; auto. exists sub. auto.
Qed.

Lemma AWF_inner pass k s : forall acc,
  AWF acc -> AWF (fold_left (collectIf pass k) s acc).
Proof.
  induction s as [|a t IH]; simpl; intros acc H; auto.
  apply IH. now apply AWF_collectIf.
Qed.

(** The loops of the handler over the whole reverse index. *)
Definition collectAll (pass : string -> bool) (subs : index) : activeMap :=
  fold_left (fun acc kv => fold_left (collectIf pass (fst kv)) (snd kv) acc)
    subs [].

Lemma RIn_outer pass (l : index) : forall acc k r,
  RIn (fold_left
         (fun acc kv => fold_left (collectIf pass (fst kv)) (snd kv) acc)
         l acc) k r <->
  RIn acc k r \/
  (exists s sub, In (k, s) l /\ In sub s /\ pass sub = true /\
                 regionOf sub = r).
Proof.
  induction l as [|[k0 s0] t IH]; simpl; intros acc k r.
  - split; [auto | intros [H|[s [sub [[] _]]]]; auto].
  - rewrite IH, RIn_inner. split.
    + intros [[H|[E [sub H]]]|[s [sub [Hi H]]]]; auto.
      * right. exists s0, sub. subst. tauto.
      * right. exists s, sub. tauto.
    + intros [H|[s [sub [[E|Hi] H]]]]; auto.
      * inversion E; subst. left. right. split; auto. exists sub. auto.
      * right. exists s, sub. tauto.
Qed.

Lemma AWF_outer pass (l : index) : forall acc,
  AWF acc ->
  AWF (fold_left
         (fun acc kv => fold_left (collectIf pass (fst kv)) (snd kv) acc)
         l acc).
Proof.
  induction l as [|[k0 s0] t IH]; simpl; intros acc H; auto.
  apply IH. now apply AWF_inner.
Qed.

(** The collected map: one key per skin id with a passing string, and under
    it, once each, the regions of the passing strings of that skin id. *)
Lemma collectAll_spec pass subs :
  WF subs ->
  AWF (collectAll pass subs) /\
  forall k r,
    RIn (collectAll pass subs) k r <->
    exists sub, InB subs k sub /\ pass sub = true /\ regionOf sub = r.
Proof.
  intros W. split.
  - apply AWF_outer. split; [constructor | discriminate].
  - intros k r. unfold collectAll. rewrite RIn_outer. split.
    + intros [[regs [E _]]|[s [sub [Hi [Hs H]]]]]; [discriminate|].
      exists sub. split; auto. apply InB_bget. exists s. split; auto.
      apply In_mget; [apply oeqb_spec | apply W | exact Hi].
    + intros [sub [Hb H]]. apply InB_bget in Hb. destruct Hb as [s [E Hs]].
      right. exists s, sub. split; auto.
      apply mget_In with (keqb := oeqb); [apply oeqb_spec | exact E].
Qed.

Lemma activeSkins_part000 d src :
  Part000.activeSkins d src = collectAll (passes src) (skinSubscriptions d).
Proof. reflexivity. Qed.

Lemma activeSkins_server d src :
  Server.activeSkins d src = collectAll (fun _ => true) (skinSubscriptions d).
Proof. reflexivity. Qed.

End Active.

(** * The properties of the specification *)

Import Js Db SetFacts Index Entries Consistency Preserve Items History Worker Ids.

(** ** The central invariant *)

(** A history on [server.js]: a user ["a"] adds skin [X] under the source
    ["EU:store"], a user ["a:EU"] adds [X] under the default source, both in
    region EU, so that both items share one composite string; then ["a"]
    removes its item. *)
Definition collidingHistory : list call :=
  [("t1", AddItem "a" (Some "X") None (Some "EU:store"));
   ("t2", AddItem "a:EU" (Some "X") None None);
   ("t3", RemoveItem "a" "X" (Some "EU:store"))]%string.

(** A history with every operation, on user ids without [":"]. *)
Definition sampleHistory : list call :=
  [("t0", Register "123e4567-e89b-12d3-a456-426614174000" (Some "tr"));
   ("t1", AddItem "anon_123e4567e89b12d3" (Some "prime-vandal") None None);
   ("t2", AddItem "bob" (Some "prime-vandal") (Some "Prime") (Some "night"));
   ("t3", SetRegion "bob" (Some "latam"));
   ("t4", RemoveItem "anon_123e4567e89b12d3" "prime-vandal" None)]%string.


(** ** Region changes *)











(** Not covered by the amended C2: the region handler of [server.js] skips
    an item whose skin id has no set ([if (!set) return]) where the second
    file opens one.  After [collidingHistory] the user ["a:EU"] has an item
    for [X]; its move to TR leaves [server.js] without a set for [X] and the
    second file with the string of the new region. *)
Lemma server_region_change_skips_missing_set :
  bget (Some "X"%string)
    (skinSubscriptions
       (fst (Server.setUserRegion (run ServerFacts.step collidingHistory)
               "a:EU" (Some "tr"%string) "t4"))) = None /\
  List.map (fun kv => List.map skinId (items (snd kv)))
    (wishlist
       (fst (Server.setUserRegion (run ServerFacts.step collidingHistory)
               "a:EU" (Some "tr"%string) "t4")))
  = [[]; [Some "X"%string]] /\
  bget (Some "X"%string)
    (skinSubscriptions
       (fst (Part000.setUserRegion (run Part000Facts.step collidingHistory)
               "a:EU" (Some "tr"%string) "t4")))
  = Some ["a:EU:store"; "a:EU:TR:store"]%string.
Proof. repeat split. Qed.

(** ** Adding the same pair twice *)



(** ** Empty sets are pruned *)




(** The store in which ["bob"] holds the only subscription to a skin. *)
Definition lastSubscriber : list call :=
  [("t1", AddItem "bob" (Some "prime-vandal") None None)]%string.


(** ** The topic of an add and the topic the worker reads back *)

(** After an add of the second file the user has an item with the skin id
    and the normalized source, and the answer carries the topic of the
    user's region, that source and the skin id. *)
Lemma part000_added_item d uid skin nm src now :
  let r := Part000.addItem d uid skin nm src now in
  exists u it,
    wget uid (wishlist (fst r)) = Some u /\ In it (items u) /\
    skinId it = skin /\ source it = Part000.normalizedSource src /\
    region u = region (userOr d uid now) /\
    Part000.addTopic (snd r) =
      generateTopic (Some (region u)) (Some (Part000.normalizedSource src))
        skin.
Proof.
  cbv zeta.
  destruct (Part000Facts.addItem_cases_part000 d uid skin src now) as [[u [G E]]|E].
  - rewrite (Part000Facts.addItem_existing_part000 _ _ _ _ nm _ now G E). simpl.
    apply existsb_exists in E. destruct E as [it [Hi S]].
    apply sameItem_true in S. destruct S as [Hk Hs].
    exists u, it. unfold userOr. rewrite G. auto 10.
  - rewrite (Part000Facts.addItem_new_part000 _ _ _ nm _ _ E). cbv zeta. simpl.
    eexists. eexists. split; [apply wget_wset_same|]. simpl.
    split; [apply in_app_iff; right; left; reflexivity|].
    simpl. auto.
Qed.




(** ** Normalization of the source *)

(** C6, as stated, fails in both files at the removal boundary: the source
    ["shop"], which normalizes to ["store"], removes nothing from a wishlist
    whose item has the source ["store"], and the source ["store"] removes
    that item. *)
Lemma removal_source_not_normalized :
  Part000.normalizedSource (Some "shop"%string) = "store"%string /\
  (let d := run Part000Facts.step lastSubscriber in
   fst (Part000.removeItem d "bob" "prime-vandal" (Some "shop"%string) "t2")
     = d /\
   fst (Part000.removeItem d "bob" "prime-vandal"
          (Some (Part000.normalizedSource (Some "shop"%string))) "t2") <> d) /\
  (let d := run ServerFacts.step lastSubscriber in
   fst (Server.removeItem d "bob" "prime-vandal" (Some "shop"%string)) = d /\
   fst (Server.removeItem d "bob" "prime-vandal"
          (Some (Part000.normalizedSource (Some "shop"%string)))) <> d).
Proof.
  split; [reflexivity|].
  split; (split; [reflexivity | vm_compute; discriminate]).
Qed.

Lemma normalizedSource_cases src :
  In (Part000.normalizedSource src) Part000.validSources /\
  (In (default src "store") Part000.validSources ->
   Part000.normalizedSource src = default src "store") /\
  (~ In (default src "store") Part000.validSources ->
   Part000.normalizedSource src = "store"%string).
Proof.
  split; [apply Part000Facts.normalizedSource_valid|].
  unfold Part000.normalizedSource.
  destruct (existsb _ Part000.validSources) eqn:E.
  - split; auto. intros N. exfalso. apply N.
    apply existsb_exists in E. destruct E as [x [Hx E]].
    apply String.eqb_eq in E. now rewrite E.
  - split; auto. intros H. exfalso.
    assert (T : existsb (String.eqb (default src "store"))
                  Part000.validSources = true).
    { apply existsb_exists. eexists. split; [exact H|].
      apply String.eqb_refl. }
    congruence.
Qed.

(** C6, amended: the add handler of [src/unnamed/part_000] replaces the
    source by ["store"] unless it is one of store, night and bundle, stores
    that value in the item, answers with the topic built from it and, when
    it inserts the item, writes it into the composite string of the reverse
    index.  The removal handlers of both files apply no normalization: they
    drop the items whose source equals the one sent (["store"] when none is
    sent, in [server.js] also when it is empty). *)
Theorem add_normalizes_source_removal_matches_exactly :
  (forall src,
      In (Part000.normalizedSource src) Part000.validSources /\
      (In (default src "store") Part000.validSources ->
       Part000.normalizedSource src = default src "store") /\
      (~ In (default src "store") Part000.validSources ->
       Part000.normalizedSource src = "store"%string)) /\
  (forall d uid skin nm src now,
      let r := Part000.addItem d uid skin nm src now in
      exists u it,
        wget uid (wishlist (fst r)) = Some u /\ In it (items u) /\
        skinId it = skin /\ source it = Part000.normalizedSource src /\
        region u = region (userOr d uid now) /\
        Part000.addTopic (snd r) =
          generateTopic (Some (region u))
            (Some (Part000.normalizedSource src)) skin) /\
  (forall d uid skin nm src now,
      existsb (sameItem skin (Part000.normalizedSource src))
        (items (userOr d uid now)) = false ->
      InB (skinSubscriptions (fst (Part000.addItem d uid skin nm src now)))
        skin
        (subKey uid (region (userOr d uid now))
           (Part000.normalizedSource src))) /\
  (forall d uid u skin src now,
      wget uid (wishlist d) = Some u ->
      exists u',
        wget uid (wishlist (fst (Part000.removeItem d uid skin src now)))
          = Some u' /\
        items u' =
          filter (fun i => negb (sameItem (Some skin) (default src "store") i))
            (items u)) /\
  (forall d uid u skin src,
      wget uid (wishlist d) = Some u ->
      exists u',
        wget uid (wishlist (fst (Server.removeItem d uid skin src)))
          = Some u' /\
        items u' =
          filter (fun i => negb (sameItem (Some skin) (orElse src "store") i))
            (items u)).
Proof.
  split; [apply normalizedSource_cases|].
  split; [apply part000_added_item|].
  split; [|split].
  - intros d uid skin nm src now E.
    rewrite (Part000Facts.addItem_new_part000 _ _ _ nm _ _ E). cbv zeta. simpl.
    apply InB_ensureAdd. auto.
  - intros d uid u skin src now G. unfold Part000.removeItem. rewrite G.
    destruct (Nat.eqb _ _); simpl; eexists;
      (split; [apply wget_wset_same | reflexivity]).
  - intros d uid u skin src G. unfold Server.removeItem. rewrite G. simpl.
    eexists. split; [apply wget_wset_same | reflexivity].
Qed.

Lemma add_normalizes_source_removal_matches_exactly_witness :
  (In "night"%string Part000.validSources /\
   Part000.normalizedSource (Some "night"%string) = "night"%string) /\
  (~ In "Night"%string Part000.validSources /\
   Part000.normalizedSource (Some "Night"%string) = "store"%string) /\
  InB (skinSubscriptions
         (fst (Part000.addItem empty "bob" (Some "reaver"%string) None
                 (Some "market"%string) "t1")))
      (Some "reaver"%string) "bob:EU:store" /\
  (exists u',
     wget "bob"
       (wishlist (fst (Part000.removeItem
                         (run Part000Facts.step lastSubscriber)
                         "bob" "prime-vandal" (Some "shop"%string) "t2")))
       = Some u' /\
     length (items u') = 1) /\
  (exists u',
     wget "bob"
       (wishlist (fst (Server.removeItem
                         (run ServerFacts.step lastSubscriber)
                         "bob" "prime-vandal" (Some "shop"%string))))
       = Some u' /\
     length (items u') = 1).
Proof.
  destruct add_normalizes_source_removal_matches_exactly
    as [N [_ [I [RP RS]]]].
  split; [|split; [|split; [|split]]].
  - split; [simpl; auto|].
    apply (proj1 (proj2 (N (Some "night"%string)))). simpl. auto.
  - assert (A : ~ In "Night"%string Part000.validSources).
    { simpl. intros [H|[H|[H|[]]]]; discriminate. }
    split; [exact A|].
    apply (proj2 (proj2 (N (Some "Night"%string)))). exact A.
  - apply (I empty "bob"%string (Some "reaver"%string) None
             (Some "market"%string) "t1"%string).
    reflexivity.
  - destruct (RP (run Part000Facts.step lastSubscriber) "bob"%string
                (mkUser "EU"
                   [mkItem (Some "prime-vandal"%string) "Unknown Skin"
                      "store" "t1"] "t1" "t1")
                "prime-vandal"%string (Some "shop"%string) "t2"%string
                eq_refl) as [u' [G E]].
    exists u'. split; [exact G|]. rewrite E. reflexivity.
  - destruct (RS (run ServerFacts.step lastSubscriber) "bob"%string
                (mkUser "EU"
                   [mkItem (Some "prime-vandal"%string) "Unknown"
                      "store" "t1"] "t1" "t1")
                "prime-vandal"%string (Some "shop"%string)
                eq_refl) as [u' [G E]].
    exists u'. split; [exact G|]. rewrite E. reflexivity.
Defined.

(** Not covered by the amended C6: the add handler of [server.js] stores
    the source as sent.  For the source ["market"] the second file stores
    ["store"] and [server.js] stores ["market"], in the item, in the composite
    string and in the topic. *)
Lemma server_add_stores_source_as_sent :
  Part000.addItem empty "bob" (Some "X"%string) None (Some "market"%string) "t1"
  = (mkDb [("bob"%string,
            mkUser "EU" [mkItem (Some "X"%string) "Unknown Skin" "store" "t1"]
                   "t1" "t1")]
          [(Some "X"%string, ["bob:EU:store"%string])],
     Part000.Added (mkItem (Some "X"%string) "Unknown Skin" "store" "t1")
       "valohub/EU/store/X") /\
  Server.addItem empty "bob" (Some "X"%string) None (Some "market"%string) "t1"
  = (mkDb [("bob"%string,
            mkUser "EU" [mkItem (Some "X"%string) "Unknown" "market" "t1"]
                   "t1" "t1")]
          [(Some "X"%string, ["bob:EU:market"%string])],
     Server.AddOk "valohub/EU/market/X").
Proof. split; reflexivity. Qed.

(** ** A request without skin id *)

(** C7: [server.js] answers an add without skin id with "skinId required"
    and leaves the store as it is, whatever the store; the add handler of
    [src/unnamed/part_000] has no such check: on the empty store it creates
    the user, stores an item whose skin id is [undefined] and opens a set
    under the key [undefined]. *)
Theorem missing_skin_id_rejected_by_server_only :
  (forall d uid nm src now,
      Server.addItem d uid None nm src now = (d, Server.SkinIdRequired)) /\
  Part000.addItem empty "u1" None None None "t1" =
    (mkDb [("u1"%string,
            mkUser "EU" [mkItem None "Unknown Skin" "store" "t1"] "t1" "t1")]
          [(None, ["u1:EU:store"%string])],
     Part000.Added (mkItem None "Unknown Skin" "store" "t1")
       "valohub/EU/store/undefined").
Proof. split; reflexivity. Qed.

(** ** Removing an item that is not there *)

Lemma existsb_kept skin src l :
  existsb (sameItem skin src)
    (filter (fun i => negb (sameItem skin src i)) l) = false.
Proof.
  induction l as [|a r IH]; simpl; auto.
  destruct (sameItem skin src a) eqn:E; simpl; auto.
  now rewrite E.
Qed.

(** The history after which ["a:EU"], who has no item for skin [X], shares
    the composite string of the item that ["a"] has for [X]. *)
Definition strayHistory : list call :=
  [("t1", AddItem "a" (Some "X") None (Some "EU:store"));
   ("t2", AddItem "a:EU" (Some "Y") None None)]%string.

(** C8: the removal handler of [src/unnamed/part_000] answers "user not
    found" exactly for an unknown user, "item not found" with the store
    unchanged when the user has no matching item, and a repeated removal
    changes nothing more.  The handler of [server.js] answers "user not
    found" exactly for an unknown user too, but has one answer for a known
    user, whether an item matched or not, and deletes the composite string in
    both cases: on [strayHistory] the removal of [X] by ["a:EU"], who has no
    such item, takes the string of the item of ["a"] out of the index. *)
Theorem removal_of_missing_item :
  (forall d uid skin src now,
      match wget uid (wishlist d) with
      | None => Part000.removeItem d uid skin src now
                = (d, Part000.UserNotFound)
      | Some u =>
          if existsb (sameItem (Some skin) (default src "store")) (items u)
          then exists t, snd (Part000.removeItem d uid skin src now)
                         = Part000.Removed t
          else Part000.removeItem d uid skin src now
               = (d, Part000.ItemNotFound)
      end) /\
  (forall d uid skin src now now',
      let d1 := fst (Part000.removeItem d uid skin src now) in
      fst (Part000.removeItem d1 uid skin src now') = d1) /\
  (forall d uid skin src,
      match wget uid (wishlist d) with
      | None => Server.removeItem d uid skin src = (d, Server.UserNotFound)
      | Some u => snd (Server.removeItem d uid skin src) = Server.RemoveOk
      end) /\
  (let d := run ServerFacts.step strayHistory in
   existsb (sameItem (Some "X"%string) "store")
     (items (userOr d "a:EU" "t3")) = false /\
   skinSubscriptions d =
     [(Some "X"%string, ["a:EU:EU:store"%string]);
      (Some "Y"%string, ["a:EU:EU:store"%string])] /\
   skinSubscriptions (fst (Server.removeItem d "a:EU" "X" None)) =
     [(Some "Y"%string, ["a:EU:EU:store"%string])]).
Proof.
  split; [|split; [|split]].
  - intros d uid skin src now.
    destruct (wget uid (wishlist d)) as [u|] eqn:G.
    + destruct (existsb _ (items u)) eqn:E.
      * rewrite (Part000Facts.removeItem_present _ _ _ _ _ now G E).
        simpl. eauto.
      * now apply (Part000Facts.removeItem_absent d uid u).
    + now apply Part000Facts.removeItem_unknown.
  - intros d uid skin src now now'. cbv zeta.
    destruct (wget uid (wishlist d)) as [u|] eqn:G.
    + destruct (existsb (sameItem (Some skin) (default src "store"))
                  (items u)) eqn:E.
      * rewrite (Part000Facts.removeItem_present _ _ _ _ _ now G E).
        cbv zeta. simpl.
        match goal with
        | |- fst (Part000.removeItem ?d1 _ _ _ _) = _ =>
            rewrite (Part000Facts.removeItem_absent d1 uid
                       (mkUser (region u)
                          (filter (fun i => negb (sameItem (Some skin)
                                     (default src "store") i)) (items u))
                          (createdAt u) now) skin src now')
        end.
        -- reflexivity.
        -- simpl. apply wget_wset_same.
        -- simpl. apply existsb_kept.
      * rewrite (Part000Facts.removeItem_absent _ _ _ _ _ now G E). simpl.
        now rewrite (Part000Facts.removeItem_absent _ _ _ _ _ now' G E).
    + rewrite (Part000Facts.removeItem_unknown _ _ _ _ now G). simpl.
      now rewrite (Part000Facts.removeItem_unknown _ _ _ _ now' G).
  - intros d uid skin src. unfold Server.removeItem.
    now destruct (wget uid (wishlist d)).
  - repeat split.
Qed.

(** ** The active skins *)

Import Active.






(** Not covered by the amended C9: the handler of [server.js] reads no
    source filter, so its answer is the same for every source sent.  On a
    store whose only subscription has the source ["store"], the filter
    ["night"] gives the empty list in the second file and the skin with its
    region in [server.js].  After every history the second file answers with
    the regions read from the composite strings that pass the filter, and
    [server.js] with those read from all of them. *)
Lemma server_active_skins_ignores_filter :
  (forall h src,
      let d := run Part000Facts.step h in
      AWF (Part000.activeSkins d src) /\
      forall k r,
        RIn (Part000.activeSkins d src) k r <->
        exists sub, InB (skinSubscriptions d) k sub /\
                    passes src sub = true /\ regionOf sub = r) /\
  (forall h src,
      let d := run ServerFacts.step h in
      Server.activeSkins d src = Server.activeSkins d None /\
      AWF (Server.activeSkins d src) /\
      forall k r,
        RIn (Server.activeSkins d src) k r <->
        exists sub, InB (skinSubscriptions d) k sub /\ regionOf sub = r) /\
  Part000.activeSkins (run Part000Facts.step lastSubscriber)
    (Some "night"%string) = [] /\
  Part000.activeSkins (run Part000Facts.step lastSubscriber)
    (Some "store"%string) = [(Some "prime-vandal"%string, [Some "EU"%string])] /\
  Server.activeSkins (run ServerFacts.step lastSubscriber)
    (Some "night"%string) = [(Some "prime-vandal"%string, [Some "EU"%string])].
Proof.
  split; [|split; [|repeat split]].
  - intros h src. cbv zeta. rewrite activeSkins_part000.
    apply collectAll_spec, Part000Facts.WF_run_part000.
  - intros h src. cbv zeta. split; [reflexivity|].
    rewrite activeSkins_server.
    destruct (collectAll_spec (fun _ => true) _ (ServerFacts.WF_run_server h))
      as [A Sp].
    split; auto. intros k r. rewrite Sp.
    split; intros [sub H]; exists sub; tauto.
Qed.

(** ** Reading a wishlist *)



(** * The helpers, the remaining routes and how the operations compose *)

(** ** Strings cut at a separator *)

Module Sep.

#[local] Open Scope string_scope.

(** The string contains no [c]. *)
Fixpoint lacks (c : ascii) (s : string) : bool :=
  match s with
  | EmptyString => true
  | String x r => negb (Ascii.eqb x c) && lacks c r
  end.

Lemma lacks_colon s : lacks Str.colon s = Str.nocolon s.
Proof. induction s; simpl; congruence. Qed.

Lemma cut_inj c a a' b b' :
  lacks c a = true -> lacks c a' = true ->
  a ++ String c b = a' ++ String c b' -> a = a' /\ b = b'.
Proof.
  revert a'. induction a as [|x a IH]; intros [|x' a'] Ha Ha' E; simpl in *.
  - inversion E; auto.
  - inversion E; subst. rewrite Ascii.eqb_refl in Ha'. discriminate.
  - inversion E; subst. rewrite Ascii.eqb_refl in Ha. discriminate.
  - inversion E as [[Ex Er]]. subst x'.
    apply andb_true_iff in Ha, Ha'.
    destruct (IH a' (proj2 Ha) (proj2 Ha') Er). split; congruence.
Qed.

(** The first part of [s.split(":")]. *)
Definition firstPart (s : string) : string := hd "" (Str.split s).

Lemma firstPart_nocolon s : Str.nocolon (firstPart s) = true.
Proof.
  unfold firstPart. induction s as [|x r IH]; simpl; auto.
  destruct (Ascii.eqb x Str.colon) eqn:E; simpl; auto.
  destruct (Str.split r); simpl in *.
  - now rewrite E.
  - now rewrite E, IH.
Qed.

Lemma firstPart_append a b :
  firstPart (a ++ String Str.colon b) = firstPart a.
Proof.
  unfold firstPart. induction a as [|x r IH]; simpl; auto.
  destruct (Ascii.eqb x Str.colon); simpl; auto.
  destruct (Str.split (r ++ String Str.colon b)), (Str.split r);
    simpl in *; congruence.
Qed.

Lemma nth_error_0_split s : nth_error (Str.split s) 0 = Some (firstPart s).
Proof.
  unfold firstPart. destruct (Str.split s) eqn:E; simpl; auto.
  destruct s as [|x r]; simpl in E; [discriminate|].
  destruct (Ascii.eqb x Str.colon); [discriminate|].
  destruct (Str.split r); discriminate.
Qed.

Lemma upper_ascii_idem c : Str.upper_ascii (Str.upper_ascii c) = Str.upper_ascii c.
Proof. destruct c as [[] [] [] [] [] [] [] []]; reflexivity. Qed.

Lemma toUpperCase_idem s : Str.toUpperCase (Str.toUpperCase s) = Str.toUpperCase s.
Proof. induction s; simpl; auto. now rewrite upper_ascii_idem, IHs. Qed.

Lemma toUpperCase_empty s : Str.toUpperCase s = "" <-> s = "".
Proof. destruct s; simpl; split; intros H; auto; discriminate. Qed.

Lemma removeDashes_lacks s : lacks "-"%char (Str.removeDashes s) = true.
Proof.
  induction s as [|x r IH]; simpl; auto.
  destruct (Ascii.eqb x "-"%char) eqn:E; simpl; auto.
  now rewrite E, IH.
Qed.

Lemma lacks_substring c n s :
  lacks c s = true -> lacks c (String.substring 0 n s) = true.
Proof.
  revert s. induction n as [|n IH]; intros [|x r]; simpl; auto.
  intros H. apply andb_true_iff in H. destruct H as [Hx Hr].
  now rewrite Hx, IH.
Qed.

Lemma length_substring n s :
  String.length (String.substring 0 n s) = Nat.min n (String.length s).
Proof.
  revert s. induction n as [|n IH]; intros [|x r]; simpl; auto.
Qed.

End Sep.

(** ** The helpers *)

Import Sep.

Lemma normalizeRegion_fixed x :
  In x regions -> normalizeRegion (Some x) = x.
Proof.
  intros H. unfold regions in H. simpl in H.
  repeat (destruct H as [<-|H]; [reflexivity|]). destruct H.
Qed.

(** X1: [normalizeRegion] always answers with a region of the list, leaves
    every region of the list as it is, and applying it to its own answer
    changes nothing. *)
Theorem normalizeRegion_closure :
  (forall r, In (normalizeRegion r) regions) /\
  (forall x, In x regions -> normalizeRegion (Some x) = x) /\
  (forall r, normalizeRegion (Some (normalizeRegion r)) = normalizeRegion r).
Proof.
  split; [apply Keys.normalizeRegion_valid|].
  split; [apply normalizeRegion_fixed|].
  intros r. apply normalizeRegion_fixed, Keys.normalizeRegion_valid.
Qed.

Lemma normalizeRegion_closure_witness :
  In "LATAM"%string regions /\
  normalizeRegion (Some "LATAM"%string) = "LATAM"%string.
Proof.
  split; [simpl; tauto|].
  apply (proj1 (proj2 normalizeRegion_closure)). simpl. tauto.
Defined.

Lemma normalizeRegion_same_upper a b :
  Str.toUpperCase a = Str.toUpperCase b ->
  normalizeRegion (Some a) = normalizeRegion (Some b).
Proof.
  intros E. unfold normalizeRegion, orElse.
  destruct (String.eqb_spec a ""), (String.eqb_spec b ""); subst; auto.
  - symmetry in E. apply (proj1 (toUpperCase_empty _)) in E. congruence.
  - apply (proj1 (toUpperCase_empty _)) in E. congruence.
  - now rewrite E.
Qed.

(** X2: [normalizeRegion] does not tell apart two strings with the same
    upper case, and answers EU for a string whose upper case is not in the
    list, for the empty string and for a missing one. *)
Theorem normalizeRegion_ignores_case :
  (forall a b, Str.toUpperCase a = Str.toUpperCase b ->
               normalizeRegion (Some a) = normalizeRegion (Some b)) /\
  (forall s, ~ In (Str.toUpperCase s) regions ->
             normalizeRegion (Some s) = "EU"%string) /\
  normalizeRegion (Some ""%string) = "EU"%string /\
  normalizeRegion None = "EU"%string.
Proof.
  split; [apply normalizeRegion_same_upper|split; [|split; reflexivity]].
  intros s N. unfold normalizeRegion, orElse.
  destruct (String.eqb_spec s ""); [reflexivity|].
  destruct (existsb _ regions) eqn:E; auto.
  apply existsb_exists in E. destruct E as [x [Hx E]].
  apply String.eqb_eq in E. subst x. tauto.
Qed.

Lemma normalizeRegion_ignores_case_witness :
  (Str.toUpperCase "latam" = Str.toUpperCase "LaTaM" /\
   normalizeRegion (Some "latam"%string) = normalizeRegion (Some "LaTaM"%string)) /\
  (~ In (Str.toUpperCase "mars") regions /\
   normalizeRegion (Some "mars"%string) = "EU"%string).
Proof.
  assert (N : ~ In (Str.toUpperCase "mars") regions).
  { simpl. intros H. repeat (destruct H as [H|H]; [discriminate|]). exact H. }
  split.
  - split; [reflexivity|].
    apply (proj1 normalizeRegion_ignores_case). reflexivity.
  - split; [exact N|].
    apply (proj1 (proj2 normalizeRegion_ignores_case)). exact N.
Defined.

Definition slash : ascii := "/"%char.

Lemma generateTopic_cut rgn src skin :
  generateTopic (Some rgn) (Some src) skin =
  ("valohub/" ++ (rgn ++ String slash (src ++ String slash (str skin))))%string.
Proof. reflexivity. Qed.

(** X3: the topic determines the region, the source and the printed skin
    id, for regions and sources without ["/"]; a missing skin id prints as
    the skin id ["undefined"]. *)
Theorem topic_determines_subscription :
  (forall r s k r' s' k',
      lacks slash r = true -> lacks slash s = true ->
      lacks slash r' = true -> lacks slash s' = true ->
      generateTopic (Some r) (Some s) k = generateTopic (Some r') (Some s') k' ->
      r = r' /\ s = s' /\ str k = str k') /\
  (forall r s, generateTopic r s None = generateTopic r s (Some "undefined"%string)).
Proof.
  split; [|reflexivity].
  intros r s k r' s' k' Hr Hs Hr' Hs' E.
  rewrite !generateTopic_cut in E. apply Str.append_cancel_l in E.
  apply cut_inj in E; [|assumption..]. destruct E as [-> E].
  apply cut_inj in E; [|assumption..]. tauto.
Qed.

Lemma topic_determines_subscription_witness :
  lacks slash "EU" = true /\ lacks slash "store" = true /\
  generateTopic (Some "EU"%string) (Some "store"%string) None =
  generateTopic (Some "EU"%string) (Some "store"%string)
    (Some "undefined"%string) /\
  str None = str (Some "undefined"%string).
Proof.
  split; [reflexivity|]. split; [reflexivity|]. split; [reflexivity|].
  apply (proj1 topic_determines_subscription "EU"%string "store"%string None
           "EU"%string "store"%string (Some "undefined"%string));
    reflexivity.
Defined.

Lemma removeDashes_nocolon s :
  Str.nocolon s = true -> Str.nocolon (Str.removeDashes s) = true.
Proof.
  induction s as [|x r IH]; simpl; auto.
  intros H. apply andb_true_iff in H. destruct H as [Hx Hr].
  destruct (Ascii.eqb x "-"%char); simpl; auto.
  now rewrite Hx, IH.
Qed.

Lemma substring_is_prefix n s :
  exists rest, s = (String.substring 0 n s ++ rest)%string.
Proof.
  revert s. induction n as [|n IH]; intros [|x r]; simpl.
  - now exists ""%string.
  - now exists (String x r).
  - now exists ""%string.
  - destruct (IH r) as [rest E]. exists rest. now rewrite <- E.
Qed.

Lemma removeDashes_filter s :
  list_ascii_of_string (Str.removeDashes s)
  = filter (fun c => negb (Ascii.eqb c "-"%char)) (list_ascii_of_string s).
Proof.
  induction s as [|c r IH]; simpl; auto.
  destruct (Ascii.eqb c "-"%char); simpl; now rewrite IH.
Qed.

(** X4: a generated user id is ["anon_"] followed by the first sixteen
    characters of the uuid without its dashes, or by all of them when there
    are fewer: the uuid without dashes is the uuid's characters other than
    ["-"], in their order, the suffix of the id is a prefix of it, and its
    length is the smaller of sixteen and that string's length.  So the suffix
    has at most sixteen characters, none of them a dash, exactly sixteen when
    there are that many, and the id has no [":"] when the uuid has none. *)
Theorem generated_id_shape :
  forall uuid,
    exists x rest,
      generateAnonUserId uuid = ("anon_" ++ x)%string /\
      Str.removeDashes uuid = (x ++ rest)%string /\
      String.length x = Nat.min 16 (String.length (Str.removeDashes uuid)) /\
      list_ascii_of_string (Str.removeDashes uuid)
      = filter (fun c => negb (Ascii.eqb c "-"%char))
          (list_ascii_of_string uuid) /\
      String.length x <= 16 /\
      lacks "-"%char x = true /\
      (16 <= String.length (Str.removeDashes uuid) -> String.length x = 16) /\
      (Str.nocolon uuid = true ->
       Str.nocolon (generateAnonUserId uuid) = true).
Proof.
  intros uuid. exists (String.substring 0 16 (Str.removeDashes uuid)).
  destruct (substring_is_prefix 16 (Str.removeDashes uuid)) as [rest E].
  exists rest. split; [reflexivity|]. split; [exact E|].
  rewrite length_substring. split; [reflexivity|].
  split; [apply removeDashes_filter|].
  split; [lia|]. split; [apply lacks_substring, removeDashes_lacks|].
  split; [lia|].
  intros H. unfold generateAnonUserId. rewrite Str.nocolon_append. simpl.
  rewrite <- lacks_colon. apply lacks_substring.
  rewrite lacks_colon. now apply removeDashes_nocolon.
Qed.

Lemma generated_id_shape_witness :
  16 <= String.length
          (Str.removeDashes "123e4567-e89b-12d3-a456-426614174000") /\
  Str.nocolon "123e4567-e89b-12d3-a456-426614174000" = true /\
  exists x rest,
    generateAnonUserId "123e4567-e89b-12d3-a456-426614174000"
      = ("anon_" ++ x)%string /\
    Str.removeDashes "123e4567-e89b-12d3-a456-426614174000"
      = (x ++ rest)%string /\
    String.length x = 16 /\
    Str.nocolon (generateAnonUserId "123e4567-e89b-12d3-a456-426614174000")
      = true.
Proof.
  split; [simpl; lia|]. split; [reflexivity|].
  destruct (generated_id_shape "123e4567-e89b-12d3-a456-426614174000")
    as [x [rest [E [P [_ [_ [_ [_ [L C]]]]]]]]].
  exists x, rest. split; [exact E|]. split; [exact P|]. split.
  - apply L. simpl. lia.
  - apply C. reflexivity.
Defined.

(** X5: the worker handlers read the user id back from a composite string
    exactly when the id has no [":"]; when user id and region have none they
    read back the region too, and as source the part of the source before
    its first [":"], which is the source exactly when it has none. *)
Theorem composite_string_read_back :
  (forall u r s,
      fst (fst (parseSub (subKey u r s))) = Some u <-> Str.nocolon u = true) /\
  (forall u r s,
      Str.nocolon u = true -> Str.nocolon r = true ->
      parseSub (subKey u r s) = (Some u, Some r, Some (firstPart s))) /\
  (forall s, firstPart s = s <-> Str.nocolon s = true).
Proof.
  assert (FP : forall s, firstPart s = s <-> Str.nocolon s = true).
  { intros s. split.
    - intros E. rewrite <- E. apply firstPart_nocolon.
    - intros H. unfold firstPart. now rewrite Str.split_nocolon. }
  split; [|split; auto].
  - intros u r s. unfold parseSub. cbn [fst].
    rewrite nth_error_0_split, Keys.subKey_sep, firstPart_append.
    rewrite <- FP. split; congruence.
  - intros u r s Hu Hr. rewrite Keys.parseSub_subKey by auto.
    now rewrite nth_error_0_split.
Qed.

Lemma composite_string_read_back_witness :
  Str.nocolon "bob" = true /\ Str.nocolon "EU" = true /\
  parseSub (subKey "bob" "EU" "night:sale") =
    (Some "bob"%string, Some "EU"%string, Some "night"%string).
Proof.
  split; [reflexivity|]. split; [reflexivity|].
  rewrite (proj1 (proj2 composite_string_read_back) "bob"%string "EU"%string
             "night:sale"%string eq_refl eq_refl).
  reflexivity.
Defined.

(** ** The remaining routes *)

Module Routes.
Import Js Db.

(** [process.env.NODE_ENV] and [process.env.WORKER_API_KEY]. *)
Record env := mkEnv {
  NODE_ENV : option string;
  WORKER_API_KEY : option string
}.

(** [checkWorkerKey] of [server.js], for the header [x-api-key]: [false]
    when it answers 401. *)
Definition checkWorkerKey (e : env) (apiKey : option string) : bool :=
  if oeqb (NODE_ENV e) (Some "production"%string) &&
     negb (oeqb apiKey (WORKER_API_KEY e))
  then false else true.

(** The test before the 401 of the worker routes of the second file:
    [apiKey !== process.env.WORKER_API_KEY &&
     process.env.NODE_ENV === 'production']. *)
Definition unauthorized (e : env) (apiKey : option string) : bool :=
  negb (oeqb apiKey (WORKER_API_KEY e)) &&
  oeqb (NODE_ENV e) (Some "production"%string).

(** [GET /health]: the sizes of the two maps. *)
Definition health (d : db) : nat * nat :=
  (length (wishlist d), length (skinSubscriptions d)).



(** A counter object such as [sourceStats]: keys in insertion order. *)
Definition counts := map string nat.

(** [o[k] = (o[k] || 0) + 1] *)
Definition bump (k : string) (o : counts) : counts :=
  mset String.eqb k
    (match mget String.eqb k o with Some n => n | None => 0 end + 1) o.

Record statsResult := mkStats {
  users : nat;
  totalWishlistItems : nat;
  uniqueSkins : nat;
  bySource : counts;
  byRegion : counts
}.

(** The three accumulators of the stats handler after one user. *)
Definition countUser (acc : nat * counts * counts) (kv : string * user)
  : nat * counts * counts :=
  let '(totalItems, sourceStats, regionStats) := acc in
  let userData := snd kv in
  (totalItems + length (items userData),
   fold_left (fun o item => bump (source item) o) (items userData) sourceStats,
   bump (region userData) regionStats).

(** [GET /api/stats] of the second file.  The counters are objects; the keys
    written are sources and regions, and the model holds for keys that are
    not properties of [Object.prototype], as those of the two lists. *)
Definition stats (d : db) : statsResult :=
  let '(totalItems, sourceStats, regionStats) :=
    fold_left countUser (wishlist d)
      (0, [("store", 0); ("night", 0); ("bundle", 0)]%string, []) in
  mkStats (length (wishlist d)) totalItems (length (skinSubscriptions d))
          sourceStats regionStats.

End Routes.

(** ** The key check of the worker routes *)

Import Routes.

(** X6: the key check of [server.js] lets a request pass exactly when the
    test of the second file does not answer 401; outside production every
    request passes, and in production exactly those whose header equals the
    configured key, so that with no key configured a request without header
    passes. *)
Theorem worker_key_check :
  (forall e k, checkWorkerKey e k = negb (unauthorized e k)) /\
  (forall e k, NODE_ENV e <> Some "production"%string ->
               checkWorkerKey e k = true) /\
  (forall e k, NODE_ENV e = Some "production"%string ->
               (checkWorkerKey e k = true <-> k = WORKER_API_KEY e)).
Proof.
  split; [|split].
  - intros e k. unfold checkWorkerKey, unauthorized.
    destruct (oeqb (NODE_ENV e) _), (oeqb k _); reflexivity.
  - intros e k N. unfold checkWorkerKey.
    apply oeqb_neq in N. now rewrite N.
  - intros e k P. unfold checkWorkerKey. rewrite P, oeqb_refl. simpl.
    destruct (oeqb_spec k (WORKER_API_KEY e)); simpl; split;
      congruence.
Qed.

Lemma worker_key_check_witness :
  (NODE_ENV (mkEnv (Some "development"%string) (Some "s3cret"%string))
     <> Some "production"%string /\
   checkWorkerKey (mkEnv (Some "development"%string) (Some "s3cret"%string))
     None = true) /\
  (NODE_ENV (mkEnv (Some "production"%string) None)
     = Some "production"%string /\
   (checkWorkerKey (mkEnv (Some "production"%string) None) None = true <->
    None = WORKER_API_KEY (mkEnv (Some "production"%string) None))).
Proof.
  split.
  - split; [discriminate|].
    apply (proj1 (proj2 worker_key_check)). discriminate.
  - split; [reflexivity|].
    apply (proj2 (proj2 worker_key_check)). reflexivity.
Defined.

(** ** The topics of a region *)

Module Topics.
Import Js Db SetFacts Index Entries Active Routes.









End Topics.

Import Topics.





(** ** The statistics *)

Module Stats.
Import Js Db Routes.

(** The count stored under [k], zero when there is none. *)
Definition value (k : string) (o : counts) : nat :=
  match mget String.eqb k o with Some n => n | None => 0 end.

Definition sumCounts (o : counts) : nat := list_sum (List.map snd o).

(** The sources of all items and the regions of all users, in store order. *)
Definition allSources (wl : map string user) : list string :=
  flat_map (fun kv => List.map source (items (snd kv))) wl.

Definition allRegions (wl : map string user) : list string :=
  List.map (fun kv => region (snd kv)) wl.

Lemma bump_cons k k0 v0 (r : counts) :
  bump k ((k0, v0) :: r) =
  if String.eqb k k0 then (k, v0 + 1) :: r else (k0, v0) :: bump k r.
Proof. unfold bump. simpl. now destruct (String.eqb k k0). Qed.

Lemma sum_bump k o : sumCounts (bump k o) = sumCounts o + 1.
Proof.
  induction o as [|[k0 v0] r IH].
  - reflexivity.
  - rewrite bump_cons. destruct (String.eqb k k0).
    + unfold sumCounts. simpl. lia.
    + unfold sumCounts in *. simpl. rewrite IH. lia.
Qed.

Lemma value_bump k k' o :
  value k' (bump k o) = if String.eqb k' k then value k o + 1 else value k' o.
Proof.
  unfold value, bump. destruct (String.eqb_spec k' k) as [->|N].
  - now rewrite mget_mset_same by apply String.eqb_spec.
  - now rewrite mget_mset_other by (apply String.eqb_spec || auto).
Qed.

Lemma keys_bump k o : In k (keys o) -> keys (bump k o) = keys o.
Proof.
  intros H. unfold bump. rewrite keys_mset by apply String.eqb_spec.
  unfold mhas. apply (in_keys_mget String.eqb String.eqb_spec) in H.
  now destruct (mget String.eqb k o).
Qed.

Lemma keys_bump_incl k o x : In x (keys (bump k o)) -> In x (keys o) \/ x = k.
Proof.
  unfold bump. rewrite keys_mset by apply String.eqb_spec.
  destruct (mhas String.eqb k o); auto.
  rewrite in_app_iff. simpl. intuition.
Qed.

Section Bumps.
Context {A : Type}.
Variable f : A -> string.

Lemma sum_bumps l : forall o,
  sumCounts (fold_left (fun o x => bump (f x) o) l o) = sumCounts o + length l.
Proof.
  induction l as [|a r IH]; simpl; intros o; [lia|].
  rewrite IH, sum_bump. lia.
Qed.

Lemma value_bumps k l : forall o,
  value k (fold_left (fun o x => bump (f x) o) l o) =
  value k o + count_occ string_dec (List.map f l) k.
Proof.
  induction l as [|a r IH]; simpl; intros o; [lia|].
  rewrite IH, value_bump.
  destruct (string_dec (f a) k) as [E|N].
  - rewrite E, String.eqb_refl. lia.
  - destruct (String.eqb_spec k (f a)); [congruence | lia].
Qed.

Lemma keys_bumps l : forall o,
  (forall a, In a l -> In (f a) (keys o)) ->
  keys (fold_left (fun o x => bump (f x) o) l o) = keys o.
Proof.
  induction l as [|a r IH]; simpl; intros o H; auto.
  rewrite IH.
  - apply keys_bump. auto.
  - intros b Hb. rewrite keys_bump by auto. auto.
Qed.

End Bumps.

(** The accumulators after the loop over the users. *)
Lemma countUser_fold wl : forall t so ro,
  let '(t', so', ro') := fold_left countUser wl (t, so, ro) in
  t' = t + length (allSources wl) /\
  sumCounts so' = sumCounts so + length (allSources wl) /\
  (forall k, value k so' =
             value k so + count_occ string_dec (allSources wl) k) /\
  sumCounts ro' = sumCounts ro + length wl /\
  (forall r, value r ro' =
             value r ro + count_occ string_dec (allRegions wl) r) /\
  ((forall s, In s (allSources wl) -> In s (keys so)) ->
   keys so' = keys so) /\
  (forall r, In r (keys ro') -> In r (keys ro) \/ In r (allRegions wl)).
Proof.
  induction wl as [|[uid u] r IH]; intros t so ro.
  - simpl. repeat split; intros; auto; try lia.
  - simpl fold_left.
    specialize (IH (t + length (items u))
                   (fold_left (fun o item => bump (source item) o)
                      (items u) so)
                   (bump (region u) ro)).
    destruct (fold_left countUser r _) as [[t' so'] ro'].
    destruct IH as [Ht [Hs [Hv [Hr [Hrv [Hk Hrk]]]]]].
    unfold allSources, allRegions in *. simpl.
    rewrite length_app, length_map.
    split; [lia|]. split; [rewrite Hs, sum_bumps; lia|].
    split.
    { intros k. rewrite Hv, value_bumps, count_occ_app. lia. }
    split; [rewrite Hr, sum_bump; lia|].
    split.
    { intros x. rewrite Hrv, value_bump.
      destruct (string_dec (region u) x) as [E|N].
      - rewrite E, String.eqb_refl. lia.
      - destruct (String.eqb_spec x (region u)); [congruence | lia]. }
    split.
    { intros H. rewrite Hk.
      - apply keys_bumps. intros a Ha. apply H.
        apply in_app_iff. left. now apply in_map.
      - intros s Hs'. rewrite keys_bumps.
        + apply H. apply in_app_iff. now right.
        + intros a Ha. apply H. apply in_app_iff. left. now apply in_map. }
    intros x Hx. destruct (Hrk x Hx) as [H|H]; auto.
    apply keys_bump_incl in H. destruct H as [H|H]; auto.
Qed.

End Stats.

Import Stats.

Lemma value_initial k :
  value k [("store", 0); ("night", 0); ("bundle", 0)]%string = 0.
Proof.
  unfold value. simpl.
  destruct (String.eqb k "store"), (String.eqb k "night"),
    (String.eqb k "bundle"); reflexivity.
Qed.

(** X9: the stats handler of the second file counts every item once: the
    total is the number of items of all users, the count under a source is
    the number of items with that source, the counts by source add up to the
    total, the count under a region is the number of users of that region,
    and the counts by region add up to the number of users. *)
Theorem stats_count_every_item_and_user_once :
  forall d,
    let s := stats d in
    totalWishlistItems s = length (allSources (wishlist d)) /\
    sumCounts (bySource s) = totalWishlistItems s /\
    (forall k, value k (bySource s) =
               count_occ string_dec (allSources (wishlist d)) k) /\
    users s = length (wishlist d) /\
    sumCounts (byRegion s) = users s /\
    (forall r, value r (byRegion s) =
               count_occ string_dec (allRegions (wishlist d)) r).
Proof.
  intros d. cbv zeta. unfold stats.
  pose proof (countUser_fold (wishlist d) 0
                [("store", 0); ("night", 0); ("bundle", 0)]%string []) as H.
  destruct (fold_left countUser (wishlist d) _) as [[t so] ro].
  destruct H as [Ht [Hs [Hv [Hr [Hrv _]]]]]. simpl.
  repeat split; auto.
  - rewrite Hs, Ht. reflexivity.
  - intros k. now rewrite Hv, value_initial.
Qed.

(** ** The users of the store *)

Lemma NoDup_wset uid u (wl : forward) :
  NoDup (keys wl) -> NoDup (keys (wset uid u wl)).
Proof. apply NoDup_keys_mset, String.eqb_spec. Qed.

(** No step of either file stores two records under one user id. *)
Lemma users_distinct_step_part000 d c :
  NoDup (keys (wishlist d)) -> NoDup (keys (wishlist (Part000Facts.step d c))).
Proof.
  intros H. unfold Part000Facts.step.
  destruct c as [now [uuid r|uid r|uid k n s|uid k s]]; simpl.
  - now apply NoDup_wset.
  - unfold Part000.setUserRegion.
    destruct (wget uid (wishlist d)); simpl; auto. now apply NoDup_wset.
  - destruct (Part000Facts.addItem_cases_part000 d uid k s now)
      as [[u [G E]]|E].
    + now rewrite (Part000Facts.addItem_existing_part000 _ _ _ _ n _ now G E).
    + rewrite (Part000Facts.addItem_new_part000 _ _ _ n _ _ E). simpl.
      now apply NoDup_wset.
  - unfold Part000.removeItem.
    destruct (wget uid (wishlist d)); simpl; auto.
    destruct (Nat.eqb _ _); simpl; repeat apply NoDup_wset; auto.
Qed.

Lemma users_distinct_part000 h :
  NoDup (keys (wishlist (run Part000Facts.step h))).
Proof.
  apply (run_always Part000Facts.step (fun d => NoDup (keys (wishlist d)))).
  - constructor.
  - intros d c. apply users_distinct_step_part000.
Qed.

(** X10: after every history of fresh registrations the counters by source
    of the second file have the keys store, night and bundle, in that order,
    and no other, and every key of the counters by region is a region of the
    list. *)
Theorem stats_keys_are_sources_and_regions :
  forall h,
    allFresh Part000Facts.step empty h = true ->
    let s := stats (run Part000Facts.step h) in
    keys (bySource s) = Part000.validSources /\
    (forall r, In r (keys (byRegion s)) -> In r regions).
Proof.
  intros h F. cbv zeta.
  pose proof (Part000Facts.Good_run_part000 h F) as Hg.
  pose proof (users_distinct_part000 h) as Hn.
  assert (U : forall uid u,
             In (uid, u) (wishlist (run Part000Facts.step h)) ->
             Part000Facts.UserOK u).
  { intros uid u Hu. apply (Part000Facts.g_users _ Hg uid).
    apply In_mget; [apply String.eqb_spec | exact Hn | exact Hu]. }
  unfold stats.
  pose proof (countUser_fold (wishlist (run Part000Facts.step h)) 0
                [("store", 0); ("night", 0); ("bundle", 0)]%string []) as H.
  destruct (fold_left countUser (wishlist (run Part000Facts.step h)) _)
    as [[t so] ro].
  destruct H as [_ [_ [_ [_ [_ [Hk Hrk]]]]]]. simpl. split.
  - rewrite Hk; [reflexivity|].
    intros s Hs. unfold allSources in Hs. apply in_flat_map in Hs.
    destruct Hs as [[uid u] [Hu Hi]]. simpl in Hi.
    apply in_map_iff in Hi. destruct Hi as [it [<- Hit]].
    destruct (U _ _ Hu) as [_ [_ Hsrc]].
    rewrite Forall_forall in Hsrc. exact (Hsrc _ Hit).
  - intros r Hr. destruct (Hrk r Hr) as [[]|H].
    unfold allRegions in H. apply in_map_iff in H.
    destruct H as [[uid u] [<- Hu]]. simpl.
    apply (U _ _ Hu).
Qed.

Lemma stats_keys_are_sources_and_regions_witness :
  allFresh Part000Facts.step empty sampleHistory = true /\
  keys (bySource (stats (run Part000Facts.step sampleHistory))) =
    Part000.validSources /\
  (forall r,
      In r (keys (byRegion (stats (run Part000Facts.step sampleHistory)))) ->
      In r regions).
Proof.
  split; [reflexivity|].
  apply (stats_keys_are_sources_and_regions sampleHistory). reflexivity.
Defined.

(** ** The skin ids of the active skins *)

Module ActiveKeys.
Import Js Db SetFacts Index Entries Active.








End ActiveKeys.

Import ActiveKeys.



(** ** Adding and then removing *)

Module RoundTrip.
Import Js Db SetFacts Index Entries.



Lemma sdelete_not_in x s : ~ In x s -> sdelete x s = s.
Proof.
  intros N. unfold sdelete. induction s as [|y r IH]; simpl; auto.
  destruct (String.eqb_spec x y) as [E|D]; simpl.
  - subst. exfalso. apply N. now left.
  - f_equal. apply IH. intros H. apply N. now right.
Qed.




End RoundTrip.







Import RoundTrip Keys.


(** The composite string of a pair the user does not have is not in the
    reverse index, when no other user's string can equal it. *)
Lemma absent_pair_absent_string d uid now k s :
  Mirror d ->
  (forall e, LiveBut uid (wishlist d) k e ->
             e <> subKey uid (region (userOr d uid now)) s) ->
  existsb (sameItem k s) (items (userOr d uid now)) = false ->
  ~ InB (skinSubscriptions d) k (subKey uid (region (userOr d uid now)) s).
Proof.
  intros M A E H. apply M in H.
  apply (Live_userOr d uid now) in H. destruct H as [[it [Hi [Hk He]]]|H].
  - apply subKey_inj_source in He. subst.
    apply existsb_sameItem_false in E. apply E.
    unfold pairs. apply in_map_iff. now exists it.
  - now apply (A _ H).
Qed.


(** A history of two users with three items on user ids without [":"]. *)
Definition wishHistory : list call :=
  [("t0", Register "123e4567-e89b-12d3-a456-426614174000" (Some "tr"));
   ("t1", AddItem "bob" (Some "phantom") None (Some "night"));
   ("t2", AddItem "bob" (Some "vandal") None None);
   ("t3", AddItem "eve" (Some "vandal") None (Some "bundle"));
   ("t4", SetRegion "eve" (Some "kr"))]%string.


(** ** What a request leaves alone *)

(** The user id a request is about. *)
Definition subject (r : request) : string :=
  match r with
  | Register uuid _ => generateAnonUserId uuid
  | SetRegion uid _ => uid
  | AddItem uid _ _ _ => uid
  | RemoveItem uid _ _ => uid
  end.

(** The skin ids whose sets a request may write: that of the request, and
    for a region change those of the items of the user. *)
Definition touched (d : db) (r : request) : list (option string) :=
  match r with
  | Register _ _ => []
  | SetRegion uid _ => List.map skinId (snd (fst (getUser d uid)))
  | AddItem _ skin _ _ => [skin]
  | RemoveItem _ skin _ => [Some skin]
  end.

Lemma getUser_same_record d d' uid :
  wget uid (wishlist d') = wget uid (wishlist d) ->
  getUser d' uid = getUser d uid.
Proof. unfold getUser. now intros ->. Qed.

Lemma wget_step_other_part000 d c uid :
  uid <> subject (snd c) ->
  wget uid (wishlist (Part000Facts.step d c)) = wget uid (wishlist d).
Proof.
  destruct c as [now r]. unfold Part000Facts.step.
  destruct r as [uuid rgn|u rgn|u skin nm src|u skin src]; simpl; intros H.
  - now apply wget_wset_other.
  - unfold Part000.setUserRegion.
    destruct (wget u (wishlist d)); simpl; auto.
    now apply wget_wset_other.
  - unfold Part000.addItem.
    destruct (wget u (wishlist d));
      destruct (existsb _ _); simpl; rewrite ?wget_wset_other; auto.
  - unfold Part000.removeItem.
    destruct (wget u (wishlist d)); simpl; auto.
    destruct (Nat.eqb _ _); simpl; rewrite ?wget_wset_other; auto.
Qed.

Lemma wget_step_other_server d c uid :
  uid <> subject (snd c) ->
  wget uid (wishlist (ServerFacts.step d c)) = wget uid (wishlist d).
Proof.
  destruct c as [now r]. unfold ServerFacts.step.
  destruct r as [uuid rgn|u rgn|u skin nm src|u skin src]; simpl; intros H.
  - now apply wget_wset_other.
  - unfold Server.setUserRegion.
    destruct (wget u (wishlist d)); simpl; auto.
    now apply wget_wset_other.
  - unfold Server.addItem. destruct (falsy skin); auto.
    destruct (wget u (wishlist d));
      destruct (existsb _ _); simpl; rewrite ?wget_wset_other; auto.
  - unfold Server.removeItem.
    destruct (wget u (wishlist d)); simpl; auto.
    now apply wget_wset_other.
Qed.

(** X14: in both files a request changes the record of no user but the one
    it is about (for a registration the generated id): every other user's
    record, and so the answer of the wishlist handler for that user, is what
    it was before the request. *)
Theorem requests_touch_one_user :
  (forall d c uid,
      uid <> subject (snd c) ->
      wget uid (wishlist (Part000Facts.step d c)) = wget uid (wishlist d) /\
      getUser (Part000Facts.step d c) uid = getUser d uid) /\
  (forall d c uid,
      uid <> subject (snd c) ->
      wget uid (wishlist (ServerFacts.step d c)) = wget uid (wishlist d) /\
      getUser (ServerFacts.step d c) uid = getUser d uid).
Proof.
  split; intros d c uid H.
  - pose proof (wget_step_other_part000 d c uid H) as E.
    split; [exact E|]. now apply getUser_same_record.
  - pose proof (wget_step_other_server d c uid H) as E.
    split; [exact E|]. now apply getUser_same_record.
Qed.

Lemma requests_touch_one_user_witness :
  "bob"%string <> subject (SetRegion "eve" (Some "na")) /\
  getUser (Part000Facts.step (run Part000Facts.step wishHistory)
             ("t5"%string, SetRegion "eve" (Some "na"))) "bob"
  = getUser (run Part000Facts.step wishHistory) "bob".
Proof.
  split; [discriminate|].
  exact (proj2 (proj1 requests_touch_one_user
                  (run Part000Facts.step wishHistory)
                  ("t5"%string, SetRegion "eve" (Some "na")) "bob"
                  ltac:(discriminate))).
Defined.

Lemma bget_fold_frame {A : Type} (f : index -> A -> index)
  (keyOf : A -> option string) k l :
  (forall subs a, k <> keyOf a -> bget k (f subs a) = bget k subs) ->
  ~ In k (List.map keyOf l) ->
  forall subs, bget k (fold_left f l subs) = bget k subs.
Proof.
  intros F. induction l as [|a r IH]; simpl; intros N subs; auto.
  rewrite IH by tauto. apply F. intros E. apply N. now left.
Qed.

Lemma bget_ensureAdd_other k e subs k' :
  k' <> k -> bget k' (ensureAdd k e subs) = bget k' subs.
Proof.
  intros H. rewrite bget_ensureAdd.
  now destruct (oeqb_spec k' k).
Qed.

Lemma bget_deletePrune_other k e subs k' :
  k' <> k -> bget k' (deletePrune k e subs) = bget k' subs.
Proof.
  intros H. rewrite bget_deletePrune.
  now destruct (oeqb_spec k' k).
Qed.

Lemma bget_relocate_other_part000 uid o n subs a k :
  k <> skinId a -> bget k (Part000.relocate uid o n subs a) = bget k subs.
Proof.
  intros H. unfold Part000.relocate.
  rewrite bget_ensureAdd_other by exact H. rewrite bget_deleteAt.
  now destruct (oeqb_spec k (skinId a)).
Qed.

Lemma bget_relocate_other_server uid o n subs a k :
  k <> skinId a -> bget k (Server.relocate uid o n subs a) = bget k subs.
Proof.
  intros H. unfold Server.relocate. rewrite bget_replaceAt.
  now destruct (oeqb_spec k (skinId a)).
Qed.

(** X15: in both files a request writes the set of no skin id but its own:
    a registration none, an add and a removal that of their skin id, a
    region change those of the skin ids of the user's items.  The set of
    every other skin id, and so the answer of the worker query for it, is
    what it was before the request. *)
Theorem requests_touch_own_skins :
  (forall d c k,
      ~ In k (touched d (snd c)) ->
      bget k (skinSubscriptions (Part000Facts.step d c))
      = bget k (skinSubscriptions d)) /\
  (forall d c k,
      ~ In k (touched d (snd c)) ->
      bget k (skinSubscriptions (ServerFacts.step d c))
      = bget k (skinSubscriptions d)) /\
  (forall d d' skin,
      bget (Some skin) (skinSubscriptions d')
      = bget (Some skin) (skinSubscriptions d) ->
      queryBySkin d' skin = queryBySkin d skin).
Proof.
  split; [|split].
  - intros d [now r] k. unfold Part000Facts.step.
    destruct r as [uuid rgn|u rgn|u skin nm src|u skin src]; simpl; intros H.
    + reflexivity.
    + unfold Part000.setUserRegion, getUser in *.
      destruct (wget u (wishlist d)) as [usr|]; simpl in *; auto.
      apply (bget_fold_frame _ skinId); auto.
      intros subs a. apply bget_relocate_other_part000.
    + unfold Part000.addItem.
      destruct (wget u (wishlist d));
        destruct (existsb _ _); simpl; auto;
        apply bget_ensureAdd_other; intuition congruence.
    + unfold Part000.removeItem.
      destruct (wget u (wishlist d)); simpl; auto.
      destruct (Nat.eqb _ _); simpl; auto.
      apply bget_deletePrune_other; intuition congruence.
  - intros d [now r] k. unfold ServerFacts.step.
    destruct r as [uuid rgn|u rgn|u skin nm src|u skin src]; simpl; intros H.
    + reflexivity.
    + unfold Server.setUserRegion, getUser in *.
      destruct (wget u (wishlist d)) as [usr|]; simpl in *; auto.
      apply (bget_fold_frame _ skinId); auto.
      intros subs a. apply bget_relocate_other_server.
    + unfold Server.addItem. destruct (falsy skin); auto.
      destruct (wget u (wishlist d));
        destruct (existsb _ _); simpl; auto;
        apply bget_ensureAdd_other; intuition congruence.
    + unfold Server.removeItem.
      destruct (wget u (wishlist d)); simpl; auto.
      apply bget_deletePrune_other; intuition congruence.
  - intros d d' skin E. unfold queryBySkin. now rewrite E.
Qed.

Lemma requests_touch_own_skins_witness :
  ~ In (Some "phantom"%string)
       (touched (run ServerFacts.step wishHistory)
          (SetRegion "eve" (Some "na"))) /\
  bget (Some "phantom"%string)
    (skinSubscriptions
       (ServerFacts.step (run ServerFacts.step wishHistory)
          ("t5"%string, SetRegion "eve" (Some "na"))))
  = bget (Some "phantom"%string)
      (skinSubscriptions (run ServerFacts.step wishHistory)).
Proof.
  assert (N : ~ In (Some "phantom"%string)
                   (touched (run ServerFacts.step wishHistory)
                      (SetRegion "eve" (Some "na")))).
  { vm_compute. intros [H|[]]. discriminate. }
  split; [exact N|].
  exact (proj1 (proj2 requests_touch_own_skins)
           (run ServerFacts.step wishHistory)
           ("t5"%string, SetRegion "eve" (Some "na"))
           (Some "phantom"%string) N).
Defined.

(** ** Region changes in a row *)

Module RegionFacts.
Import Js Db SetFacts Index Entries Consistency.

Lemma keys_mset_known {K V : Type} (keqb : K -> K -> bool)
  (keqb_spec : forall a b, reflect (a = b) (keqb a b)) k (v : V) m :
  mget keqb k m <> None -> keys (mset keqb k v m) = keys m.
Proof.
  intros H. rewrite keys_mset by exact keqb_spec. unfold mhas.
  now destruct (mget keqb k m).
Qed.






Lemma items_have_sets d uid u it :
  Mirror d -> wget uid (wishlist d) = Some u -> In it (items u) ->
  bget (skinId it) (skinSubscriptions d) <> None.
Proof.
  intros M W Hi.
  assert (L : Live (wishlist d) (skinId it)
                (subKey uid (region u) (source it))).
  { exists uid, u. split; auto. exists it. auto. }
  apply M in L. apply InB_bget in L. destruct L as [s [G _]]. congruence.
Qed.

End RegionFacts.

Import RegionFacts.








(** ** Users *)

Lemma keys_wset_cases uid (u : user) wl :
  (wget uid wl <> None /\ keys (wset uid u wl) = keys wl) \/
  (~ In uid (keys wl) /\ keys (wset uid u wl) = keys wl ++ [uid]).
Proof.
  rewrite (keys_mset String.eqb String.eqb_spec). unfold mhas.
  destruct (wget uid wl) eqn:W.
  - left. split; [discriminate|reflexivity].
  - right. split; [|reflexivity].
    intros H. apply (in_keys_mget String.eqb String.eqb_spec) in H. congruence.
Qed.

Lemma wishlist_step_part000 d c :
  wishlist (Part000Facts.step d c) = wishlist d \/
  exists u, wishlist (Part000Facts.step d c)
            = wset (subject (snd c)) u (wishlist d).
Proof.
  destruct c as [now r]. unfold Part000Facts.step.
  destruct r as [uuid rgn|uid rgn|uid skin nm src|uid skin src]; simpl.
  - right. eexists. reflexivity.
  - unfold Part000.setUserRegion.
    destruct (wget uid (wishlist d)); simpl; eauto.
  - unfold Part000.addItem.
    destruct (wget uid (wishlist d));
      destruct (existsb _ _); simpl; eauto;
      rewrite mset_mset by apply String.eqb_spec; eauto.
  - unfold Part000.removeItem.
    destruct (wget uid (wishlist d)); simpl; eauto.
    destruct (Nat.eqb _ _); simpl; eauto.
    rewrite mset_mset by apply String.eqb_spec; eauto.
Qed.

Lemma wishlist_step_server d c :
  wishlist (ServerFacts.step d c) = wishlist d \/
  exists u, wishlist (ServerFacts.step d c)
            = wset (subject (snd c)) u (wishlist d).
Proof.
  destruct c as [now r]. unfold ServerFacts.step.
  destruct r as [uuid rgn|uid rgn|uid skin nm src|uid skin src]; simpl.
  - right. eexists. reflexivity.
  - unfold Server.setUserRegion.
    destruct (wget uid (wishlist d)); simpl; eauto.
  - unfold Server.addItem. destruct (falsy skin); auto.
    destruct (wget uid (wishlist d));
      destruct (existsb _ _); simpl; eauto;
      rewrite mset_mset by apply String.eqb_spec; eauto.
  - unfold Server.removeItem.
    destruct (wget uid (wishlist d)); simpl; eauto.
Qed.

(** Neither a region change nor a removal creates a user. *)
Definition createsNoUser (r : request) : bool :=
  match r with
  | SetRegion _ _ | RemoveItem _ _ _ => true
  | _ => false
  end.

Lemma keys_quiet_part000 d c :
  createsNoUser (snd c) = true ->
  keys (wishlist (Part000Facts.step d c)) = keys (wishlist d).
Proof.
  destruct c as [now r]. unfold Part000Facts.step.
  destruct r as [uuid rgn|uid rgn|uid skin nm src|uid skin src]; simpl;
    try discriminate; intros _.
  - unfold Part000.setUserRegion.
    destruct (wget uid (wishlist d)) eqn:W; simpl; auto.
    apply (keys_mset_known String.eqb String.eqb_spec). congruence.
  - unfold Part000.removeItem.
    destruct (wget uid (wishlist d)) eqn:W; simpl; auto.
    destruct (Nat.eqb _ _); simpl;
      rewrite ?mset_mset by apply String.eqb_spec;
      apply (keys_mset_known String.eqb String.eqb_spec); congruence.
Qed.

Lemma keys_quiet_server d c :
  createsNoUser (snd c) = true ->
  keys (wishlist (ServerFacts.step d c)) = keys (wishlist d).
Proof.
  destruct c as [now r]. unfold ServerFacts.step.
  destruct r as [uuid rgn|uid rgn|uid skin nm src|uid skin src]; simpl;
    try discriminate; intros _.
  - unfold Server.setUserRegion.
    destruct (wget uid (wishlist d)) eqn:W; simpl; auto.
    apply (keys_mset_known String.eqb String.eqb_spec). congruence.
  - unfold Server.removeItem.
    destruct (wget uid (wishlist d)) eqn:W; simpl; auto.
    apply (keys_mset_known String.eqb String.eqb_spec). congruence.
Qed.

(** X17: no request removes a user.  In both files the user ids of the
    forward index after a request are those before it, in the same order,
    followed by the id the request is about when that was not a user yet;
    a region change and a removal add none.  A registration answers with
    the generated id and the normalized region, and the wishlist handler
    then lists that region and no item for the id. *)
Theorem users_are_never_removed :
  (forall d c,
      let ks := keys (wishlist d) in
      let ks' := keys (wishlist (Part000Facts.step d c)) in
      (ks' = ks \/
       (~ In (subject (snd c)) ks /\ ks' = ks ++ [subject (snd c)])) /\
      (createsNoUser (snd c) = true -> ks' = ks)) /\
  (forall d c,
      let ks := keys (wishlist d) in
      let ks' := keys (wishlist (ServerFacts.step d c)) in
      (ks' = ks \/
       (~ In (subject (snd c)) ks /\ ks' = ks ++ [subject (snd c)])) /\
      (createsNoUser (snd c) = true -> ks' = ks)) /\
  (forall d uuid rgn now,
      snd (registerUser d uuid rgn now)
      = (generateAnonUserId uuid, normalizeRegion rgn) /\
      getUser (fst (registerUser d uuid rgn now)) (generateAnonUserId uuid)
      = (normalizeRegion rgn, [], [])).
Proof.
  split; [|split].
  - intros d c ks ks'. split; [|apply keys_quiet_part000].
    subst ks ks'. destruct (wishlist_step_part000 d c) as [->|[u ->]]; auto.
    destruct (keys_wset_cases (subject (snd c)) u (wishlist d))
      as [[_ E]|[N E]]; auto.
  - intros d c ks ks'. split; [|apply keys_quiet_server].
    subst ks ks'. destruct (wishlist_step_server d c) as [->|[u ->]]; auto.
    destruct (keys_wset_cases (subject (snd c)) u (wishlist d))
      as [[_ E]|[N E]]; auto.
  - intros d uuid rgn now. split; [reflexivity|].
    unfold registerUser, getUser. simpl. now rewrite wget_wset_same.
Qed.

Lemma users_are_never_removed_witness :
  createsNoUser (RemoveItem "zed" "vandal" None) = true /\
  keys (wishlist (ServerFacts.step (run ServerFacts.step wishHistory)
                    ("t5"%string, RemoveItem "zed" "vandal" None)))
  = keys (wishlist (run ServerFacts.step wishHistory)).
Proof.
  split; [reflexivity|].
  exact (proj2 (proj1 (proj2 users_are_never_removed)
                  (run ServerFacts.step wishHistory)
                  ("t5"%string, RemoveItem "zed" "vandal" None)) eq_refl).
Defined.

(** ** The number of skins *)










(** ** What the worker sees after a removal *)





(** ** The two files on the same requests *)

Module Agree.
Import Js Db SetFacts Index Entries Consistency Items History.
Import RoundTrip RegionFacts Keys Active.

(** What both files store of a user in the same way: [updatedAt] is written
    by the add and removal handlers of the second file only. *)
Definition core (u : user) : string * list item * timestamp :=
  (region u, items u, createdAt u).

Definition view (wl : forward)
  : list (string * (string * list item * timestamp)) :=
  List.map (fun kv => (fst kv, core (snd kv))) wl.

(** Two stores with the same reverse index and the same users, in the same
    order, with the same region, items and creation time. *)
Definition Agrees (dS dP : db) : Prop :=
  view (wishlist dS) = view (wishlist dP) /\
  skinSubscriptions dS = skinSubscriptions dP.

(** The requests both files read alike: an add with a skin id and a skin
    name, neither empty, and a source that is missing or one of store, night
    and bundle; a removal whose source is not the empty string. *)
Definition plain (r : request) : bool :=
  match r with
  | AddItem _ skin nm src =>
      negb (falsy skin) && negb (falsy nm) &&
      existsb (String.eqb (default src "store")) Part000.validSources
  | RemoveItem _ _ src => negb (oeqb src (Some ""%string))
  | _ => true
  end.

Lemma view_wget wl wl' uid :
  view wl = view wl' ->
  option_map core (wget uid wl) = option_map core (wget uid wl').
Proof.
  revert wl'. induction wl as [|[k u] r IH]; intros [|[k' u'] r'];
    simpl; try discriminate; auto.
  intros E. inversion E; subst.
  destruct (String.eqb uid k'); simpl; [congruence|auto].
Qed.

Lemma view_wset wl wl' uid u u' :
  view wl = view wl' -> core u = core u' ->
  view (wset uid u wl) = view (wset uid u' wl').
Proof.
  revert wl'. induction wl as [|[k v] r IH]; intros [|[k' v'] r'];
    simpl; try discriminate.
  - intros _ E. now rewrite E.
  - intros E C. inversion E; subst.
    destruct (String.eqb uid k'); simpl.
    + congruence.
    + f_equal; [congruence|]. now apply IH.
Qed.

Lemma view_userOr dS dP uid now :
  view (wishlist dS) = view (wishlist dP) ->
  core (userOr dS uid now) = core (userOr dP uid now).
Proof.
  intros E. apply (view_wget _ _ uid) in E. unfold userOr.
  destruct (wget uid (wishlist dS)), (wget uid (wishlist dP));
    simpl in E; congruence.
Qed.

Lemma view_getUser dS dP uid :
  view (wishlist dS) = view (wishlist dP) -> getUser dS uid = getUser dP uid.
Proof.
  intros E. apply (view_wget _ _ uid) in E. unfold getUser.
  destruct (wget uid (wishlist dS)) as [u|],
           (wget uid (wishlist dP)) as [u'|]; simpl in E; try discriminate;
    auto.
  inversion E as [[Er Ei Ec]]. now rewrite Er, Ei.
Qed.

Lemma relocate_same uid o n subs a :
  bget (skinId a) subs <> None ->
  Part000.relocate uid o n subs a = Server.relocate uid o n subs a.
Proof.
  intros H. unfold Part000.relocate, Server.relocate, deleteAt, replaceAt.
  destruct (bget (skinId a) subs) as [s|] eqn:G; [|congruence].
  unfold ensureAdd, mhas. rewrite bget_bset_same. rewrite bget_bset_same.
  apply mset_mset. apply oeqb_spec.
Qed.

Lemma fold_relocate_same uid o n l : forall subs,
  (forall a, In a l -> bget (skinId a) subs <> None) ->
  fold_left (Part000.relocate uid o n) l subs
  = fold_left (Server.relocate uid o n) l subs.
Proof.
  induction l as [|a r IH]; simpl; intros subs H; auto.
  rewrite relocate_same by auto. apply IH.
  intros b Hb. apply ServerFacts.relocate_keeps_server. auto.
Qed.

Lemma deletePrune_absent k e subs :
  WF subs -> ~ InB subs k e -> deletePrune k e subs = subs.
Proof.
  unfold deletePrune, InB, bucket. intros W N.
  destruct (bget k subs) as [s|] eqn:G; auto.
  rewrite sdelete_not_in by exact N. cbv zeta.
  rewrite mset_same_value by (apply oeqb_spec || exact G).
  destruct s; [exfalso; now apply (wf_nonempty _ W k [])|reflexivity].
Qed.

Lemma filter_keeps_all skin src l :
  existsb (sameItem skin src) l = false ->
  filter (fun i => negb (sameItem skin src i)) l = l.
Proof.
  induction l as [|a r IH]; simpl; auto.
  destruct (sameItem skin src a); simpl; [discriminate|].
  intros E. now rewrite IH.
Qed.

Lemma plain_add skin nm src :
  plain (AddItem ""%string skin nm src) = true ->
  falsy skin = false /\
  orElse nm "Unknown" = orElse nm "Unknown Skin" /\
  Part000.normalizedSource src = default src "store".
Proof.
  unfold plain. intros H. apply andb_true_iff in H. destruct H as [H V].
  apply andb_true_iff in H. destruct H as [Hk Hn].
  apply negb_true_iff in Hk, Hn. split; [exact Hk|]. split.
  - destruct nm as [n|]; simpl in Hn; [|discriminate]. simpl. now rewrite Hn.
  - unfold Part000.normalizedSource. cbv zeta. now rewrite V.
Qed.

Lemma agree_register dS dP uuid rgn now :
  Agrees dS dP ->
  Agrees (fst (registerUser dS uuid rgn now)) (fst (registerUser dP uuid rgn now)).
Proof.
  intros [Hv Hs]. split; simpl; [|exact Hs]. now apply view_wset.
Qed.

Lemma agree_setUserRegion dS dP uid rgn now :
  Agrees dS dP -> Mirror dS ->
  Agrees (fst (Server.setUserRegion dS uid rgn now))
         (fst (Part000.setUserRegion dP uid rgn now)).
Proof.
  intros [Hv Hs] M.
  pose proof (view_wget _ _ uid Hv) as E.
  unfold Server.setUserRegion, Part000.setUserRegion.
  destruct (wget uid (wishlist dS)) as [uS|] eqn:WS,
           (wget uid (wishlist dP)) as [uP|] eqn:WP; simpl in E;
    try discriminate; simpl; [|now split].
  inversion E as [[Er Ei Ec]]. split; simpl.
  - apply view_wset; auto; unfold core; simpl; congruence.
  - rewrite <- Hs, <- ?Er, <- ?Ei. symmetry. apply fold_relocate_same.
    intros a Ha. now apply (items_have_sets dS uid uS).
Qed.

Lemma agree_addItem dS dP uid skin nm src now :
  Agrees dS dP ->
  plain (AddItem uid skin nm src) = true ->
  Agrees (fst (Server.addItem dS uid skin nm src now))
         (fst (Part000.addItem dP uid skin nm src now)).
Proof.
  intros [Hv Hs] Pl. destruct (plain_add skin nm src Pl) as [F [En Es]].
  pose proof (view_userOr dS dP uid now Hv) as C.
  inversion C as [[Er Ei Ec]].
  destruct (ServerFacts.addItem_cases_server dS uid skin src now)
    as [[uS [WS E]]|E].
  - rewrite (ServerFacts.addItem_existing_server dS uid uS skin nm src now F WS E).
    pose proof (view_wget _ _ uid Hv) as V. rewrite WS in V.
    destruct (wget uid (wishlist dP)) as [uP|] eqn:WP; simpl in V;
      [|discriminate].
    inversion V as [[Vr Vi Vc]].
    rewrite (Part000Facts.addItem_existing_part000 dP uid uP skin nm src now WP)
      by (rewrite Es, <- Vi; exact E).
    now split.
  - rewrite (ServerFacts.addItem_new_server dS uid skin nm src now F E).
    rewrite (Part000Facts.addItem_new_part000 dP uid skin nm src now)
      by (rewrite Es, <- Ei; exact E).
    cbv zeta. simpl fst. split; simpl.
    + apply view_wset; auto; unfold core; simpl.
      now rewrite Er, Ei, Ec, En, Es.
    + now rewrite Hs, Er, Es.
Qed.

Lemma agree_removeItem dS dP uid skin src now :
  Agrees dS dP -> ServerFacts.Good dS ->
  plain (RemoveItem uid skin src) = true ->
  Agrees (fst (Server.removeItem dS uid skin src))
         (fst (Part000.removeItem dP uid skin src now)).
Proof.
  intros [Hv Hs] G Pl.
  assert (Eo : orElse src "store" = default src "store").
  { simpl in Pl. apply negb_true_iff, oeqb_neq in Pl.
    destruct src as [s|]; simpl; auto.
    destruct (String.eqb_spec s ""); congruence. }
  pose proof (view_wget _ _ uid Hv) as V.
  unfold Server.removeItem. rewrite Eo.
  destruct (wget uid (wishlist dS)) as [uS|] eqn:WS,
           (wget uid (wishlist dP)) as [uP|] eqn:WP; simpl in V;
    try discriminate.
  - inversion V as [[Vr Vi Vc]].
    destruct (existsb (sameItem (Some skin) (default src "store")) (items uP))
      eqn:E.
    + rewrite (Part000Facts.removeItem_present dP uid uP skin src now WP E).
      cbv zeta. split; simpl.
      * apply view_wset; auto; unfold core; simpl; now rewrite Vr, Vi, Vc.
      * now rewrite Hs, Vr.
    + rewrite (Part000Facts.removeItem_absent dP uid uP skin src now WP E).
      simpl fst. rewrite <- Vi in E.
      rewrite (filter_keeps_all _ _ _ E), user_eta.
      rewrite mset_same_value by (apply String.eqb_spec || exact WS).
      rewrite deletePrune_absent; [now split|apply G|].
      destruct (ServerFacts.g_users _ G uid uS WS) as [Hu [_ Hr]].
      pose proof (absent_pair_absent_string dS uid now (Some skin)
                    (default src "store") (ServerFacts.g_mirror _ G)) as A.
      unfold userOr in A. rewrite WS in A. apply A; [|exact E].
      intros e L. eapply ServerFacts.others_apart_server; eauto.
      * apply G.
      * now apply regions_nocolon.
  - rewrite (Part000Facts.removeItem_unknown dP uid skin src now WP).
    now split.
Qed.

Lemma agree_step dS dP c :
  Agrees dS dP -> ServerFacts.Good dS -> plain (snd c) = true ->
  Agrees (ServerFacts.step dS c) (Part000Facts.step dP c).
Proof.
  destruct c as [now r]. unfold ServerFacts.step, Part000Facts.step.
  destruct r as [uuid rgn|uid rgn|uid skin nm src|uid skin src]; simpl snd;
    simpl fst; intros A G Pl.
  - now apply agree_register.
  - apply agree_setUserRegion; auto. apply G.
  - now apply agree_addItem.
  - now apply agree_removeItem.
Qed.

Lemma agree_run h : forall dS dP,
  Agrees dS dP -> ServerFacts.Good dS ->
  allFresh ServerFacts.step dS h = true ->
  forallb (fun c => cleanId (snd c)) h = true ->
  forallb (fun c => plain (snd c)) h = true ->
  Agrees (fold_left ServerFacts.step h dS) (fold_left Part000Facts.step h dP).
Proof.
  induction h as [|c r IH]; simpl; intros dS dP A G Fr Cl Pl; auto.
  apply andb_true_iff in Fr, Cl, Pl.
  destruct Fr as [F1 F2], Cl as [C1 C2], Pl as [P1 P2].
  apply IH; auto.
  - now apply agree_step.
  - now apply ServerFacts.Good_step_server.
Qed.

Lemma collectIf_ext p q skin acc sub :
  p sub = q sub -> collectIf p skin acc sub = collectIf q skin acc sub.
Proof. unfold collectIf. now intros ->. Qed.

Lemma collectAll_ext p q subs :
  (forall sub, p sub = q sub) -> collectAll p subs = collectAll q subs.
Proof.
  intros E. unfold collectAll. generalize (@nil (option string * list (option string))).
  induction subs as [|[k s] r IH]; simpl; intros acc; auto.
  assert (I : forall l a, fold_left (collectIf p k) l a
                          = fold_left (collectIf q k) l a).
  { induction l as [|x l IHl]; simpl; intros a; auto.
    now rewrite (collectIf_ext p q k a x (E x)). }
  now rewrite I.
Qed.

End Agree.

Import Agree.

(** A history of requests that send skin names and listed sources. *)
Definition namedHistory : list call :=
  [("t0", Register "123e4567-e89b-12d3-a456-426614174000" (Some "tr"));
   ("t1", AddItem "bob" (Some "phantom") (Some "Phantom") (Some "night"));
   ("t2", AddItem "anon_123e4567e89b12d3" (Some "vandal") (Some "Vandal") None);
   ("t3", SetRegion "bob" (Some "kr"));
   ("t4", RemoveItem "bob" "vandal" None);
   ("t5", AddItem "bob" (Some "vandal") (Some "Vandal") (Some "bundle"));
   ("t6", RemoveItem "bob" "phantom" (Some "night"))]%string.

(** X20: on the requests both files read alike the two files stay in step.
    After every history of fresh registrations on user ids without [":"]
    whose adds send a skin id, a skin name and a missing or listed source
    and whose removals send no empty source, the two files hold the same
    reverse index, sets and order included, and the same users in the same
    order with the same region, items and creation time; so the wishlist
    handler, the worker query, the health handler and the unfiltered
    active-skins handler answer alike. *)
Theorem files_agree_on_plain_requests :
  forall h,
    allFresh ServerFacts.step empty h = true ->
    forallb (fun c => cleanId (snd c)) h = true ->
    forallb (fun c => plain (snd c)) h = true ->
    let dS := run ServerFacts.step h in
    let dP := run Part000Facts.step h in
    skinSubscriptions dS = skinSubscriptions dP /\
    view (wishlist dS) = view (wishlist dP) /\
    (forall uid, getUser dS uid = getUser dP uid) /\
    (forall skin, queryBySkin dS skin = queryBySkin dP skin) /\
    health dS = health dP /\
    (forall src, falsy src = true ->
                 Server.activeSkins dS src = Part000.activeSkins dP src).
Proof.
  intros h Fr Cl Pl dS dP.
  destruct (agree_run h empty empty (conj eq_refl eq_refl)
              ServerFacts.Good_empty_server Fr Cl Pl) as [Hv Hs].
  fold (run ServerFacts.step h) in Hv, Hs.
  fold (run Part000Facts.step h) in Hv, Hs. fold dS dP in Hv, Hs.
  split; [exact Hs|]. split; [exact Hv|]. split; [|split; [|split]].
  - intros uid. now apply view_getUser.
  - intros skin. unfold queryBySkin. now rewrite Hs.
  - unfold health. rewrite Hs. f_equal.
    apply (f_equal (@length _)) in Hv. unfold view in Hv.
    now rewrite !length_map in Hv.
  - intros src F. rewrite activeSkins_server, activeSkins_part000, Hs.
    symmetry. apply collectAll_ext. intros sub. unfold passes.
    now rewrite F.
Qed.

Lemma files_agree_on_plain_requests_witness :
  allFresh ServerFacts.step empty namedHistory = true /\
  forallb (fun c => cleanId (snd c)) namedHistory = true /\
  forallb (fun c => plain (snd c)) namedHistory = true /\
  skinSubscriptions (run ServerFacts.step namedHistory)
  = skinSubscriptions (run Part000Facts.step namedHistory).
Proof.
  split; [reflexivity|]. split; [reflexivity|]. split; [reflexivity|].
  exact (proj1 (files_agree_on_plain_requests namedHistory
                  eq_refl eq_refl eq_refl)).
Defined.

(** ** Removing twice *)

Lemma sdelete_twice e s : sdelete e (sdelete e s) = sdelete e s.
Proof.
  apply sdelete_not_in. intros H. apply In_sdelete in H. tauto.
Qed.

Lemma deletePrune_twice k e subs :
  deletePrune k e (deletePrune k e subs) = deletePrune k e subs.
Proof.
  unfold deletePrune at 2 3.
  destruct (bget k subs) as [s|] eqn:G.
  - cbv zeta. destruct (Nat.eqb (length (sdelete e s)) 0) eqn:L.
    + unfold deletePrune.
      now rewrite (mget_mdelete_same oeqb oeqb_spec).
    + unfold deletePrune. rewrite bget_bset_same, sdelete_twice. cbv zeta.
      rewrite L. apply mset_mset. apply oeqb_spec.
  - unfold deletePrune. now rewrite G.
Qed.

Lemma filter_twice {A : Type} (p : A -> bool) l :
  filter p (filter p l) = filter p l.
Proof.
  induction l as [|a r IH]; simpl; auto.
  destruct (p a) eqn:E; simpl; [rewrite E; f_equal|]; exact IH.
Qed.

(** X21: the removal of [server.js] is idempotent: on every store, a second
    removal with the same user id, skin id and source gives the answer of
    the first and leaves the store the first one left. *)
Theorem server_removal_is_idempotent :
  forall d uid skin src,
    Server.removeItem (fst (Server.removeItem d uid skin src)) uid skin src
    = Server.removeItem d uid skin src.
Proof.
  intros d uid skin src. unfold Server.removeItem at 2 3.
  destruct (wget uid (wishlist d)) as [u|] eqn:W; simpl fst.
  - unfold Server.removeItem. simpl wishlist. rewrite wget_wset_same.
    simpl. rewrite filter_twice, deletePrune_twice.
    now rewrite mset_mset by apply String.eqb_spec.
  - unfold Server.removeItem. now rewrite W.
Qed.

(** ** One composite string per item *)

Module Counting.
Import Js Db SetFacts Index Entries Consistency Items Keys Stats.














End Counting.

Import Counting.




(** * Request bodies as JSON

    The handlers take [skinId], [skinName] and [source] from the parsed JSON
    body, and the removal takes [source] from the parsed query string, with
    no check of their type.  The definitions below model the same handlers
    on every value such a field can hold; on strings they are the handlers
    of the sections above. *)

Module Json.
Import Js.

(** A field of [req.body] or [req.query]: absent, or any JSON value.  A
    number is given by the string it prints as (equal numbers print alike);
    an array or object by the identity the parser gave it, which no value
    of another request shares, and the string it prints as (an array prints
    its elements joined by [","]). *)
Inductive value :=
| JUndef
| JNull
| JBool (b : bool)
| JNum (printed : string)
| JStr (s : string)
| JObj (id : nat) (printed : string).

(** [a === b], which on these values is also the comparison of [Map] keys
    and of [Array.prototype.includes]. *)
Definition veqb (a b : value) : bool :=
  match a, b with
  | JUndef, JUndef => true
  | JNull, JNull => true
  | JBool x, JBool y => Bool.eqb x y
  | JNum x, JNum y => String.eqb x y
  | JStr x, JStr y => String.eqb x y
  | JObj i p, JObj j q => Nat.eqb i j && String.eqb p q
  | _, _ => false
  end.



(** [`${v}`] *)
Definition show (v : value) : string :=
  match v with
  | JUndef => "undefined"
  | JNull => "null"
  | JBool true => "true"
  | JBool false => "false"
  | JNum p => p
  | JStr s => s
  | JObj _ p => p
  end.

(** [!!v] *)
Definition truthy (v : value) : bool :=
  match v with
  | JUndef => false
  | JNull => false
  | JBool b => b
  | JNum p => negb (String.eqb p "0")
  | JStr s => negb (String.eqb s "")
  | JObj _ _ => true
  end.

(** [v || d] *)
Definition orElse (v d : value) : value := if truthy v then v else d.

(** Destructuring default [{ f = d }]. *)
Definition default (v d : value) : value :=
  match v with JUndef => d | _ => v end.



Record item := mkItem {
  skinId : value;
  skinName : value;
  source : value;
  addedAt : Db.timestamp
}.

Record user := mkUser {
  region : string;
  items : list item;
  createdAt : Db.timestamp;
  updatedAt : Db.timestamp
}.

Record db := mkDb {
  wishlist : map string user;
  skinSubscriptions : map value set
}.

Definition empty : db := mkDb [] [].

Abbreviation wget := (mget String.eqb).
Abbreviation wset := (mset String.eqb).
Abbreviation vget := (mget veqb).
Abbreviation vhas := (mhas veqb).
Abbreviation vset := (mset veqb).
Abbreviation vdelete := (mdelete veqb).

(** [generateTopic] / [generateTopicName] *)
Definition generateTopic (rgn : string) (src skin : value) : string :=
  ("valohub/" ++ rgn ++ "/" ++ show src ++ "/" ++ show skin)%string.

(** [`${anonUserId}:${region}:${source}`] *)
Definition subKey (uid rgn : string) (src : value) : string :=
  Db.subKey uid rgn (show src).

Definition newUser (rgn : string) (now : Db.timestamp) : user :=
  mkUser rgn [] now now.

(** [i.skinId === skinId && i.source === source] *)
Definition sameItem (skin src : value) (i : item) : bool :=
  veqb (skinId i) skin && veqb (source i) src.

(** [if (!subs.has(k)) subs.set(k, new Set()); subs.get(k).add(e)] *)
Definition ensureAdd (k : value) (e : string) (subs : map value set)
  : map value set :=
  let subs1 := if vhas k subs then subs else vset k [] subs in
  match vget k subs1 with
  | Some s => vset k (sadd e s) subs1
  | None => subs1
  end.

(** [const s = subs.get(k); if (s) s.delete(e)] *)
Definition deleteAt (k : value) (e : string) (subs : map value set)
  : map value set :=
  match vget k subs with
  | Some s => vset k (sdelete e s) subs
  | None => subs
  end.

(** [const s = subs.get(k);
     if (s) { s.delete(e); if (s.size === 0) subs.delete(k) }] *)
Definition deletePrune (k : value) (e : string) (subs : map value set)
  : map value set :=
  match vget k subs with
  | Some s =>
      let s' := sdelete e s in
      let subs1 := vset k s' subs in
      if Nat.eqb (length s') 0 then vdelete k subs1 else subs1
  | None => subs
  end.

(** [const s = subs.get(k); if (!s) return; s.delete(o); s.add(n)] *)
Definition replaceAt (k : value) (o n : string) (subs : map value set)
  : map value set :=
  match vget k subs with
  | Some s => vset k (sadd n (sdelete o s)) subs
  | None => subs
  end.

(** [POST /api/user/register].  A [region] that is neither a string nor
    falsy makes [normalizeRegion] throw before the store is written, in this
    handler and in the region handler; the model takes the regions for which
    it returns: a string, or [None] for a missing or falsy one. *)
Definition registerUser (d : db) (uuid : string) (rgn : option string)
  (now : Db.timestamp) : db * (string * string) :=
  let r := Db.normalizeRegion rgn in
  let anonUserId := Db.generateAnonUserId uuid in
  (mkDb (wset anonUserId (newUser r now) (wishlist d)) (skinSubscriptions d),
   (anonUserId, r)).

(** [GET /api/wishlist/:anonUserId] *)
Definition getUser (d : db) (uid : string)
  : string * list item * list string :=
  match wget uid (wishlist d) with
  | None => ("EU"%string, [], [])
  | Some u =>
      (region u, items u,
       List.map (fun i => generateTopic (region u) (source i) (skinId i))
         (items u))
  end.

(** [GET /api/internal/subscriptions/:skinId]: the skin id is the path
    parameter, a string, and the set is looked up under that string. *)
Definition queryBySkin (d : db) (skin : string) : list Db.subscription :=
  match vget (JStr skin) (skinSubscriptions d) with
  | None => []
  | Some subs =>
      List.map (fun s =>
        let '(u, r, src) := Db.parseSub s in
        Db.mkSub u r src (Db.generateTopic r src (Some skin))) subs
  end.

(** The requests: the user id and the skin id of a removal are path
    parameters, strings; the fields of the body and the [source] of the
    query string are values. *)
Inductive request :=
| Register (uuid : string) (rgn : option string)
| SetRegion (uid : string) (rgn : option string)
| AddItem (uid : string) (skin skinNm src : value)
| RemoveItem (uid skin : string) (src : value).

Definition call : Type := Db.timestamp * request.

Definition fresh (d : db) (r : request) : bool :=
  match r with
  | Register uuid _ =>
      negb (mhas String.eqb (Db.generateAnonUserId uuid) (wishlist d))
  | _ => true
  end.

Section Runs.
Variable step : db -> call -> db.

Definition run (h : list call) : db := fold_left step h empty.

Fixpoint allFresh (d : db) (h : list call) : bool :=
  match h with
  | [] => true
  | c :: r => fresh d (snd c) && allFresh (step d c) r
  end.

End Runs.

End Json.

(** ** [src/unnamed/part_000] on JSON values *)

Module Part000Json.
Import Js Json.

(** [const { source = 'store' } = req.body;
     const normalizedSource = validSources.includes(source) ? source : 'store'] *)
Definition normalizedSource (src : value) : value :=
  let source := default src (JStr "store") in
  if existsb (veqb source) (List.map JStr Part000.validSources)
  then source else JStr "store".

Inductive regionResult :=
| RegionNotFound
| RegionOk (newRegion : string).

Definition relocate (uid oldRegion newRegion : string)
  (subs : map value set) (it : item) : map value set :=
  ensureAdd (skinId it) (subKey uid newRegion (source it))
    (deleteAt (skinId it) (subKey uid oldRegion (source it)) subs).

(** [PUT /api/user/:anonUserId/region] *)
Definition setUserRegion (d : db) (uid : string) (rgn : option string)
  (now : Db.timestamp) : db * regionResult :=
  match wget uid (wishlist d) with
  | None => (d, RegionNotFound)
  | Some userData =>
      let oldRegion := region userData in
      let newRegion := Db.normalizeRegion rgn in
      let userData' :=
        mkUser newRegion (items userData) (createdAt userData) now in
      (mkDb (wset uid userData' (wishlist d))
            (fold_left (relocate uid oldRegion newRegion) (items userData)
               (skinSubscriptions d)),
       RegionOk newRegion)
  end.

Inductive addResult :=
| AlreadyInWishlist (topic : string)
| Added (newItem : item) (topic : string).

Definition addTopic (r : addResult) : string :=
  match r with AlreadyInWishlist t => t | Added _ t => t end.

(** [POST /api/wishlist/:anonUserId] *)
Definition addItem (d : db) (uid : string) (skin skinNm src : value)
  (now : Db.timestamp) : db * addResult :=
  let normalized := normalizedSource src in
  let '(userData, wl) :=
    match wget uid (wishlist d) with
    | Some u => (u, wishlist d)
    | None => let u := newUser "EU" now in (u, wset uid u (wishlist d))
    end in
  let topic := generateTopic (region userData) normalized skin in
  if existsb (sameItem skin normalized) (items userData) then
    (mkDb wl (skinSubscriptions d), AlreadyInWishlist topic)
  else
    let newItem :=
      mkItem skin (orElse skinNm (JStr "Unknown Skin")) normalized now in
    let userData' :=
      mkUser (region userData) (items userData ++ [newItem])
             (createdAt userData) now in
    (mkDb (wset uid userData' wl)
          (ensureAdd skin (subKey uid (region userData) normalized)
             (skinSubscriptions d)),
     Added newItem topic).

Inductive removeResult :=
| UserNotFound
| ItemNotFound
| Removed (unsubscribeTopic : string).

(** [DELETE /api/wishlist/:anonUserId/:skinId] *)
Definition removeItem (d : db) (uid skin : string) (src : value)
  (now : Db.timestamp) : db * removeResult :=
  let source := default src (JStr "store") in
  match wget uid (wishlist d) with
  | None => (d, UserNotFound)
  | Some userData =>
      let kept :=
        filter (fun i => negb (sameItem (JStr skin) source i))
          (items userData) in
      let userData1 :=
        mkUser (region userData) kept (createdAt userData)
               (updatedAt userData) in
      let wl1 := wset uid userData1 (wishlist d) in
      if Nat.eqb (length kept) (length (items userData)) then
        (mkDb wl1 (skinSubscriptions d), ItemNotFound)
      else
        let userData2 :=
          mkUser (region userData) kept (createdAt userData) now in
        (mkDb (wset uid userData2 wl1)
              (deletePrune (JStr skin)
                 (subKey uid (region userData) source) (skinSubscriptions d)),
         Removed (generateTopic (region userData) source (JStr skin)))
  end.

Definition step (d : db) (c : call) : db :=
  match snd c with
  | Register uuid rgn => fst (registerUser d uuid rgn (fst c))
  | SetRegion uid rgn => fst (setUserRegion d uid rgn (fst c))
  | AddItem uid skin nm src => fst (addItem d uid skin nm src (fst c))
  | RemoveItem uid skin src => fst (removeItem d uid skin src (fst c))
  end.

End Part000Json.

(** ** [src/server.js] on JSON values *)

Module ServerJson.
Import Js Json.

Inductive regionResult :=
| RegionNotFound
| RegionOk (newRegion : string).

Definition relocate (uid oldRegion newRegion : string)
  (subs : map value set) (it : item) : map value set :=
  replaceAt (skinId it) (subKey uid oldRegion (source it))
    (subKey uid newRegion (source it)) subs.

(** [PUT /api/user/:anonUserId/region] *)
Definition setUserRegion (d : db) (uid : string) (rgn : option string)
  (now : Db.timestamp) : db * regionResult :=
  let newRegion := Db.normalizeRegion rgn in
  match wget uid (wishlist d) with
  | None => (d, RegionNotFound)
  | Some user =>
      let oldRegion := region user in
      let user' := mkUser newRegion (items user) (createdAt user) now in
      (mkDb (wset uid user' (wishlist d))
            (fold_left (relocate uid oldRegion newRegion) (items user)
               (skinSubscriptions d)),
       RegionOk newRegion)
  end.

Inductive addResult :=
| SkinIdRequired
| AddOk (topic : string).

(** [POST /api/wishlist/:anonUserId] *)
Definition addItem (d : db) (uid : string) (skin skinNm src : value)
  (now : Db.timestamp) : db * addResult :=
  let source := default src (JStr "store") in
  if negb (truthy skin) then (d, SkinIdRequired)
  else
    let '(user, wl) :=
      match wget uid (wishlist d) with
      | Some u => (u, wishlist d)
      | None => let u := newUser "EU" now in (u, wset uid u (wishlist d))
      end in
    let topic := generateTopic (region user) source skin in
    if existsb (sameItem skin source) (items user) then
      (mkDb wl (skinSubscriptions d), AddOk topic)
    else
      let newItem :=
        mkItem skin (orElse skinNm (JStr "Unknown")) source now in
      let user' :=
        mkUser (region user) (items user ++ [newItem]) (createdAt user)
               (updatedAt user) in
      (mkDb (wset uid user' wl)
            (ensureAdd skin (subKey uid (region user) source)
               (skinSubscriptions d)),
       AddOk topic).

Inductive removeResult :=
| UserNotFound
| RemoveOk.

(** [DELETE /api/wishlist/:anonUserId/:skinId] *)
Definition removeItem (d : db) (uid skin : string) (src : value)
  : db * removeResult :=
  let source := orElse src (JStr "store") in
  match wget uid (wishlist d) with
  | None => (d, UserNotFound)
  | Some user =>
      let kept :=
        filter (fun i => negb (sameItem (JStr skin) source i)) (items user) in
      let user' :=
        mkUser (region user) kept (createdAt user) (updatedAt user) in
      (mkDb (wset uid user' (wishlist d))
            (deletePrune (JStr skin) (subKey uid (region user) source)
               (skinSubscriptions d)),
       RemoveOk)
  end.

Definition step (d : db) (c : call) : db :=
  match snd c with
  | Register uuid rgn => fst (registerUser d uuid rgn (fst c))
  | SetRegion uid rgn => fst (setUserRegion d uid rgn (fst c))
  | AddItem uid skin nm src => fst (addItem d uid skin nm src (fst c))
  | RemoveItem uid skin src => fst (removeItem d uid skin src)
  end.

End ServerJson.

(** ** The second file on JSON values and on strings

    The second file compares skin ids and never looks inside one, and it
    stores a source only after normalizing it to a string.  So its handlers
    on JSON values do what its handlers on strings do when every skin id is
    replaced by a string that stands for it, different values by different
    strings: the stores stay related, user by user and item by item, and the
    reverse indexes are the same up to that renaming of the keys. *)

Module Lift.
Import Js Db SetFacts Index Entries Consistency Items History.
Import Json.














































End Lift.

(** * The claims on JSON values *)

Import Lift.

(** ** The central invariant *)



(** The body [{"skinId":"X","source":null}] posted for ["bob"], then the
    removal of [X] with the query [?source=null]. *)
Definition nullSourceHistory : list Json.call :=
  [("t1", Json.AddItem "bob" (Json.JStr "X") Json.JUndef Json.JNull);
   ("t2", Json.RemoveItem "bob" "X" (Json.JStr "null"))]%string.




(** ** Adding the same pair twice *)












(** Not covered by the amended C3: in [server.js] a removal deletes the
    composite string whether an item matched or not, so an add of a pair the
    user has can find no string to count.  After [nullSourceHistory] the
    user adds the same body again: one item, and no set for [X]; so it is
    on strings alone after [collidingHistory], when ["a:EU"] adds [X]
    again. *)
Lemma server_readd_finds_no_string :
  (let r := ServerJson.addItem (Json.run ServerJson.step nullSourceHistory)
              "bob" (Json.JStr "X") Json.JUndef Json.JNull "t3" in
   snd r = ServerJson.AddOk "valohub/EU/null/X" /\
   List.map (fun kv => List.map Json.skinId (Json.items (snd kv)))
     (Json.wishlist (fst r)) = [[Json.JStr "X"]] /\
   Json.skinSubscriptions (fst r) = []) /\
  (let r := Server.addItem (run ServerFacts.step collidingHistory) "a:EU"
              (Some "X"%string) None None "t4" in
   snd r = Server.AddOk "valohub/EU/store/X" /\
   List.map (fun kv => List.map skinId (items (snd kv))) (wishlist (fst r))
   = [[]; [Some "X"%string]] /\
   bget (Some "X"%string) (skinSubscriptions (fst r)) = None).
Proof. repeat split. Qed.



(** ** The topic of an add and the topic the worker reads back *)



